(** * aiogtrans: the request encoder, response framer and response decoder
    of [AiohttpTranslator] (src/aiogtrans/aiohttpclient.py).

    The development is a shallow embedding.  A Python [str] is a Rocq
    [string] (characters are the code points below 256), a Python [dict]
    used as a lookup table is a [gmap], exceptions are values of [exn]
    returned through a small state-and-error monad whose state records the
    HTTP posts issued so far. *)

From Stdlib Require Import Ascii String List ZArith Bool Arith Lia.
From stdpp Require Import base option list strings gmap pretty.
Import ListNotations.

Local Open Scope string_scope.
Local Open Scope list_scope.

(** ** Python string primitives *)

Module PyStr.

(** The characters the framer and the resolver look at. *)
Definition dquote : ascii := "034"%char.
Definition backslash : ascii := "092"%char.
Definition lbracket : ascii := "091"%char.
Definition rbracket : ascii := "093"%char.
Definition underscore : ascii := "095"%char.
Definition newline : ascii := "010"%char.

(** [quoted s] is the text of [s] between two double quotes, as the
    f-string [f'"{RPC_ID}"'] builds it. *)
Definition quoted (s : string) : string :=
  String dquote (s +:+ String dquote "").

(** [s[:n]]: the first [n] characters, all of [s] when it is shorter. *)
Fixpoint take (n : nat) (s : string) : string :=
  match n, s with
  | S n', String c s' => String c (take n' s')
  | _, _ => ""
  end.

(** [s.startswith(p)]. *)
Fixpoint startswith (p s : string) : bool :=
  match p, s with
  | "", _ => true
  | String a p', String b s' => Ascii.eqb a b && startswith p' s'
  | String _ _, "" => false
  end.

(** [needle in hay] on strings: [needle] occurs as a substring. *)
Fixpoint contains (needle hay : string) : bool :=
  startswith needle hay ||
  match hay with
  | "" => false
  | String _ hay' => contains needle hay'
  end.

(** [s[i] == ch]; an index out of range compares unequal. *)
Definition char_at_is (s : string) (i : nat) (ch : ascii) : bool :=
  match String.get i s with
  | Some c => Ascii.eqb c ch
  | None => false
  end.

(** [s.split(sep)] for a one-character separator: never empty. *)
Fixpoint split (sep : ascii) (s : string) : list string :=
  match s with
  | "" => [""]
  | String c s' =>
      if Ascii.eqb c sep then "" :: split sep s'
      else match split sep s' with
           | h :: t => String c h :: t
           | [] => [String c ""]
           end
  end.

(** [s.split(sep, 1)]: at most one cut, at the first separator. *)
Fixpoint split1 (sep : ascii) (s : string) : list string :=
  match s with
  | "" => [""]
  | String c s' =>
      if Ascii.eqb c sep then [""; s']
      else match split1 sep s' with
           | h :: t => String c h :: t
           | [] => [String c ""]
           end
  end.

(** [sep.join(parts)]. *)
Fixpoint join (sep : string) (parts : list string) : string :=
  match parts with
  | [] => ""
  | [p] => p
  | p :: rest => p +:+ sep +:+ join sep rest
  end.

(** [c.lower()] on one code point below 256: the ASCII capitals and the
    Latin-1 capitals (192..222 but the multiplication sign 215) move up
    by 32. *)
Definition lower_char (c : ascii) : ascii :=
  let n := nat_of_ascii c in
  if (((65 <=? n) && (n <=? 90)) || ((192 <=? n) && (n <=? 222) && negb (n =? 215)))%nat
  then ascii_of_nat (n + 32) else c.

(** [c.upper()] on an ASCII code point ([a]..[z] move down by 32). *)
Definition upper_char (c : ascii) : ascii :=
  let n := nat_of_ascii c in
  if ((97 <=? n) && (n <=? 122))%nat then ascii_of_nat (n - 32) else c.

Fixpoint map_chars (f : ascii -> ascii) (s : string) : string :=
  match s with
  | "" => ""
  | String c s' => String (f c) (map_chars f s')
  end.

(** [s.lower()]. *)
Definition lower (s : string) : string := map_chars lower_char s.

(** [s.upper()], for an ASCII string. *)
Definition upper (s : string) : string := map_chars upper_char s.

(** Number of occurrences of a character. *)
Fixpoint count (ch : ascii) (s : string) : nat :=
  match s with
  | "" => 0
  | String c s' => (if Ascii.eqb c ch then 1 else 0) + count ch s'
  end.

(** [s.endswith(ch)] for one character. *)
Fixpoint last_is (ch : ascii) (s : string) : bool :=
  match s with
  | "" => false
  | String c "" => Ascii.eqb c ch
  | String _ rest => last_is ch rest
  end.

(** Every character of [s] passes [p]. *)
Fixpoint all_chars (p : ascii -> bool) (s : string) : bool :=
  match s with
  | "" => true
  | String c s' => p c && all_chars p s'
  end.

Definition is_ascii (s : string) : bool :=
  all_chars (fun c => (nat_of_ascii c <? 128)%nat) s.

(** The texts of the examples are written with an apostrophe where the
    text has a double quote, and a vertical bar where it has a line
    break. *)
Definition lit (s : string) : string :=
  map_chars (fun c => if Ascii.eqb c "'" then dquote
                      else if Ascii.eqb c "|" then newline else c) s.

End PyStr.

(** ** Python values and exceptions *)

Local Set Warnings "-register-all".

(** The values [json.loads] builds and [json.dumps] prints.  A float keeps
    the spelling it was read with, its value being what [float] reads that
    spelling as; a [dict] keeps its items in order. *)
Inductive json : Type :=
| JNull
| JBool (b : bool)
| JInt (z : Z)
| JFloat (lexeme : string)
| JStr (s : string)
| JList (items : list json)
| JDict (members : list (string * json)).

(** The exceptions the client can raise.  [ValueError] carries its message.
    [StatusException] is the plain [Exception] of [_translate], whose
    message interpolates the status code and [self.service_urls].
    [JSONDecodeError], [IndexError], [KeyError] and [TypeError] come from
    [json.loads] and from subscripting; [TransportError] is whatever the
    HTTP session raises. *)
Inductive exn : Type :=
| ValueError (msg : string)
| StatusException (status : Z) (service_urls : list string)
| JSONDecodeError
| IndexError
| KeyError
| TypeError
| TransportError (what : string).

Module PyObj.

(** [v[i]] for a literal index [i >= 0]. *)
Definition getitem (v : json) (i : nat) : exn + json :=
  match v with
  | JList items =>
      match items !! i with
      | Some x => inr x
      | None => inl IndexError
      end
  | JStr s =>
      match String.get i s with
      | Some c => inr (JStr (String c ""))
      | None => inl IndexError
      end
  | JDict _ => inl KeyError
  | _ => inl TypeError
  end.

(** [len(v)]. *)
Definition len (v : json) : exn + nat :=
  match v with
  | JList items => inr (length items)
  | JStr s => inr (String.length s)
  | JDict members => inr (length members)
  | _ => inl TypeError
  end.

(** The digits a spelling starts with, and what follows them. *)
Fixpoint leading_digits (s : string) : string * string :=
  match s with
  | String c rest =>
      if ((48 <=? nat_of_ascii c) && (nat_of_ascii c <=? 57))%nat then
        let '(ds, tl) := leading_digits rest in (String c ds, tl)
      else ("", s)
  | "" => ("", "")
  end.

Fixpoint decimal_value (acc : Z) (ds : string) : Z :=
  match ds with
  | "" => acc
  | String c rest => decimal_value (10 * acc + Z.of_nat (nat_of_ascii c - 48))%Z rest
  end.

(** Whether the float a spelling is read as is zero.  [float] rounds the
    decimal value to the nearest binary64, ties to even: the result is
    zero exactly when the magnitude is at most 2^-1075, half the smallest
    subnormal.  The spelling is a sign, digits, an optional fraction and
    an optional exponent; [NaN] and [Infinity], which have no digit, are
    not zero. *)
Definition float_is_zero (lexeme : string) : bool :=
  let unsigned :=
    match lexeme with
    | String "-" rest => rest
    | _ => lexeme
    end in
  let '(ipart, s1) := leading_digits unsigned in
  let '(frac, s2) :=
    match s1 with
    | String "." rest => leading_digits rest
    | _ => ("", s1)
    end in
  let exponent :=
    match s2 with
    | String e rest =>
        if Ascii.eqb e "e" || Ascii.eqb e "E" then
          match rest with
          | String "-" ds => (- decimal_value 0 (fst (leading_digits ds)))%Z
          | String "+" ds => decimal_value 0 (fst (leading_digits ds))
          | ds => decimal_value 0 (fst (leading_digits ds))
          end
        else 0%Z
    | "" => 0%Z
    end in
  let mantissa := decimal_value 0 (ipart +:+ frac) in
  let scale := (exponent - Z.of_nat (String.length frac))%Z in
  if String.eqb (ipart +:+ frac) "" then false
  else (mantissa =? 0)%Z
       || ((scale <? 0)%Z && (mantissa * 2 ^ 1075 <=? 10 ^ (- scale))%Z).

(** Truth value of [v], as [x if v else y] tests it. *)
Definition truthy (v : json) : bool :=
  match v with
  | JNull => false
  | JBool b => b
  | JInt z => negb (z =? 0)%Z
  | JFloat lexeme => negb (float_is_zero lexeme)
  | JStr s => negb (String.eqb s "")
  | JList items => negb (Nat.eqb (length items) 0)
  | JDict members => negb (Nat.eqb (length members) 0)
  end.

(** [v == "auto"]-style comparison of a value with a string literal. *)
Definition eq_str (v : json) (lit : string) : bool :=
  match v with
  | JStr s => String.eqb s lit
  | _ => false
  end.

(** The iteration [map(f, v)] makes over [v]: the items of a list, the
    one-character strings of a [str], the keys of a [dict]. *)
Definition iter (v : json) : exn + list json :=
  match v with
  | JList items => inr items
  | JStr s => inr (map (fun c => JStr (String c "")) (list_ascii_of_string s))
  | JDict members => inr (map (fun kv => JStr (fst kv)) members)
  | _ => inl TypeError
  end.

End PyObj.

(** ** [json.dumps(obj, separators=(",", ":"))] *)

Module Json.

Definition hex_digit (n : nat) : ascii :=
  if (n <? 10)%nat then ascii_of_nat (48 + n) else ascii_of_nat (87 + n).

(** One character of a string, as [ensure_ascii] prints it: the two
    characters JSON reserves and the short control escapes, then four
    hexadecimal digits for whatever is not between space and tilde.  The
    characters of a [string] are below U+0100; [Unicode.escape_codepoint],
    further down, is the same function on every code point. *)
Definition escape_char (c : ascii) : string :=
  let n := nat_of_ascii c in
  if Ascii.eqb c PyStr.dquote then String PyStr.backslash (String PyStr.dquote "")
  else if Ascii.eqb c PyStr.backslash then String PyStr.backslash (String PyStr.backslash "")
  else if (n =? 10)%nat then String PyStr.backslash "n"
  else if (n =? 13)%nat then String PyStr.backslash "r"
  else if (n =? 9)%nat then String PyStr.backslash "t"
  else if (n =? 8)%nat then String PyStr.backslash "b"
  else if (n =? 12)%nat then String PyStr.backslash "f"
  else if ((32 <=? n) && (n <=? 126))%nat then String c ""
  else String PyStr.backslash
         ("u00" +:+ String (hex_digit (n / 16)) (String (hex_digit (n mod 16)) "")).

Fixpoint escape (s : string) : string :=
  match s with
  | "" => ""
  | String c rest => escape_char c +:+ escape rest
  end.

(** A string between its quotes. *)
Definition dumps_str (s : string) : string := PyStr.quoted (escape s).

(** Items joined by the item separator [","], with nothing around it. *)
Fixpoint dumps (v : json) : string :=
  match v with
  | JNull => "null"
  | JBool true => "true"
  | JBool false => "false"
  | JInt z => pretty z
  | JFloat lexeme => lexeme
  | JStr s => dumps_str s
  | JList items => "[" +:+ PyStr.join "," (map dumps items) +:+ "]"
  | JDict members =>
      "{" +:+ PyStr.join ","
                (map (fun kv => dumps_str (fst kv) +:+ ":" +:+ dumps (snd kv)) members)
          +:+ "}"
  end.

(** The tokens of the JSON text of [v], in order: brackets, braces,
    commas, colons, literals, numbers and quoted strings. *)
Fixpoint sep_concat {A : Type} (sep : list A) (groups : list (list A)) : list A :=
  match groups with
  | [] => []
  | [g] => g
  | g :: rest => g ++ sep ++ sep_concat sep rest
  end.

Fixpoint tokens (v : json) : list string :=
  match v with
  | JNull => ["null"]
  | JBool true => ["true"]
  | JBool false => ["false"]
  | JInt z => [pretty z]
  | JFloat lexeme => [lexeme]
  | JStr s => [dumps_str s]
  | JList items => ["["] ++ sep_concat [","] (map tokens items) ++ ["]"]
  | JDict members =>
      ["{"] ++ sep_concat [","]
                 (map (fun kv => [dumps_str (fst kv); ":"] ++ tokens (snd kv)) members)
            ++ ["}"]
  end.

(** The compact serialisation the spec asks of the encoder: the tokens
    one after the other, nothing between them. *)
Definition compact (v : json) : string := String.concat "" (tokens v).

(** *** [json.loads]

    The decoder of the standard library, for the closed examples of
    this file: the client itself takes the decoder as a parameter.  An
    escape above code point 255 is outside the alphabet of this model and is
    answered [None]. *)

Definition is_ws (c : ascii) : bool :=
  let n := nat_of_ascii c in
  ((n =? 32) || (n =? 9) || (n =? 10) || (n =? 13))%nat.

Fixpoint skip_ws (s : string) : string :=
  match s with
  | String c rest => if is_ws c then skip_ws rest else s
  | "" => ""
  end.

Definition is_digit (c : ascii) : bool :=
  let n := nat_of_ascii c in ((48 <=? n) && (n <=? 57))%nat.

Fixpoint span_digits (s : string) : string * string :=
  match s with
  | String c rest =>
      if is_digit c then
        let '(ds, tl) := span_digits rest in (String c ds, tl)
      else ("", s)
  | "" => ("", "")
  end.

Fixpoint digits_value (acc : Z) (ds : string) : Z :=
  match ds with
  | "" => acc
  | String c rest => digits_value (10 * acc + Z.of_nat (nat_of_ascii c - 48))%Z rest
  end.

Definition hex_value (c : ascii) : option nat :=
  let n := nat_of_ascii c in
  if ((48 <=? n) && (n <=? 57))%nat then Some (n - 48)
  else if ((97 <=? n) && (n <=? 102))%nat then Some (n - 87)
  else if ((65 <=? n) && (n <=? 70))%nat then Some (n - 55)
  else None.

Definition unescape (e : ascii) : option ascii :=
  if Ascii.eqb e PyStr.dquote then Some PyStr.dquote
  else if Ascii.eqb e PyStr.backslash then Some PyStr.backslash
  else if Ascii.eqb e "/" then Some "/"%char
  else if Ascii.eqb e "b" then Some "008"%char
  else if Ascii.eqb e "f" then Some "012"%char
  else if Ascii.eqb e "n" then Some "010"%char
  else if Ascii.eqb e "r" then Some "013"%char
  else if Ascii.eqb e "t" then Some "009"%char
  else None.

(** The body of a string literal, from after its opening quote. *)
Fixpoint scan_string (s : string) : option (string * string) :=
  match s with
  | "" => None
  | String c rest =>
      if Ascii.eqb c PyStr.dquote then Some ("", rest)
      else if Ascii.eqb c PyStr.backslash then
        match rest with
        | String e rest' =>
            if Ascii.eqb e "u" then
              match rest' with
              | String h1 (String h2 (String h3 (String h4 rest''))) =>
                  match hex_value h1, hex_value h2, hex_value h3, hex_value h4 with
                  | Some a, Some b, Some c', Some d =>
                      let n := ((a * 16 + b) * 16 + c') * 16 + d in
                      if (n <? 256)%nat then
                        match scan_string rest'' with
                        | Some (t, tl) => Some (String (ascii_of_nat n) t, tl)
                        | None => None
                        end
                      else None
                  | _, _, _, _ => None
                  end
              | _ => None
              end
            else
              match unescape e with
              | Some ch =>
                  match scan_string rest' with
                  | Some (t, tl) => Some (String ch t, tl)
                  | None => None
                  end
              | None => None
              end
        | "" => None
        end
      else if (nat_of_ascii c <? 32)%nat then None
      else
        match scan_string rest with
        | Some (t, tl) => Some (String c t, tl)
        | None => None
        end
  end.

(** A number: an integer part, then an optional fraction and exponent,
    either of which makes it a float. *)
Definition scan_number (s : string) : option (json * string) :=
  let '(sign, s1) :=
    match s with
    | String "-" rest => ("-", rest)
    | _ => ("", s)
    end in
  match s1 with
  | String d rest1 =>
      if is_digit d then
        let '(ipart, s2) :=
          if Ascii.eqb d "0" then ("0", rest1)
          else span_digits s1 in
        let '(frac, s3) :=
          match s2 with
          | String "." rest2 =>
              match span_digits rest2 with
              | ("", _) => ("", s2)
              | (ds, tl) => ("." +:+ ds, tl)
              end
          | _ => ("", s2)
          end in
        let '(expo, s4) :=
          match s3 with
          | String e rest3 =>
              if Ascii.eqb e "e" || Ascii.eqb e "E" then
                let '(sg, rest4) :=
                  match rest3 with
                  | String "-" r => ("-", r)
                  | String "+" r => ("+", r)
                  | _ => ("", rest3)
                  end in
                match span_digits rest4 with
                | ("", _) => ("", s3)
                | (ds, tl) => (String e (sg +:+ ds), tl)
                end
              else ("", s3)
          | "" => ("", s3)
          end in
        if String.eqb frac "" && String.eqb expo "" then
          let v := digits_value 0 ipart in
          Some (JInt (if String.eqb sign "" then v else (- v)%Z), s4)
        else Some (JFloat (sign +:+ ipart +:+ frac +:+ expo), s4)
      else None
  | "" => None
  end.

Fixpoint drop (n : nat) (s : string) : string :=
  match n, s with
  | S n', String _ s' => drop n' s'
  | _, _ => s
  end.

(** [d[k] = v] on an ordered dictionary. *)
Fixpoint dict_set (k : string) (v : json) (members : list (string * json))
  : list (string * json) :=
  match members with
  | [] => [(k, v)]
  | (k', v') :: rest =>
      if String.eqb k' k then (k', v) :: rest else (k', v') :: dict_set k v rest
  end.

Definition literals : list (string * json) :=
  [("null", JNull); ("true", JBool true); ("false", JBool false);
   ("NaN", JFloat "NaN"); ("Infinity", JFloat "Infinity");
   ("-Infinity", JFloat "-Infinity")].

Definition scan_literal (s : string) : option (json * string) :=
  match List.find (fun lv => PyStr.startswith (fst lv) s) literals with
  | Some (l, v) => Some (v, drop (String.length l) s)
  | None => None
  end.

Fixpoint parse_value (fuel : nat) (s : string) : option (json * string) :=
  match fuel with
  | O => None
  | S fuel' =>
      match s with
      | "" => None
      | String c rest =>
          if Ascii.eqb c PyStr.dquote then
            match scan_string rest with
            | Some (t, tl) => Some (JStr t, tl)
            | None => None
            end
          else if Ascii.eqb c PyStr.lbracket then
            match skip_ws rest with
            | String "]" tl => Some (JList [], tl)
            | inner => parse_items fuel' inner []
            end
          else if Ascii.eqb c "{" then
            match skip_ws rest with
            | String "}" tl => Some (JDict [], tl)
            | inner => parse_members fuel' inner []
            end
          else
            match scan_literal s with
            | Some r => Some r
            | None => scan_number s
            end
      end
  end
with parse_items (fuel : nat) (s : string) (acc : list json) : option (json * string) :=
  match fuel with
  | O => None
  | S fuel' =>
      match parse_value fuel' s with
      | Some (v, rest) =>
          match skip_ws rest with
          | String "]" tl => Some (JList (acc ++ [v]), tl)
          | String "," tl => parse_items fuel' (skip_ws tl) (acc ++ [v])
          | _ => None
          end
      | None => None
      end
  end
with parse_members (fuel : nat) (s : string) (acc : list (string * json))
  : option (json * string) :=
  match fuel with
  | O => None
  | S fuel' =>
      match s with
      | String q rest =>
          if Ascii.eqb q PyStr.dquote then
            match scan_string rest with
            | Some (k, rest1) =>
                match skip_ws rest1 with
                | String ":" rest2 =>
                    match parse_value fuel' (skip_ws rest2) with
                    | Some (v, rest3) =>
                        match skip_ws rest3 with
                        | String "}" tl => Some (JDict (dict_set k v acc), tl)
                        | String "," tl =>
                            parse_members fuel' (skip_ws tl) (dict_set k v acc)
                        | _ => None
                        end
                    | None => None
                    end
                | _ => None
                end
            | None => None
            end
          else None
      | "" => None
      end
  end.

Definition loads (s : string) : option json :=
  match parse_value (2 * S (String.length s)) (skip_ws s) with
  | Some (v, rest) =>
      match skip_ws rest with
      | "" => Some v
      | _ => None
      end
  | None => None
  end.

End Json.

(** ** Results, effects *)

(** What the client reads of an [aiohttp.ClientResponse]: [status] and the
    text [await request.text()] gives. *)
Record Response : Type := { status : Z; body : string }.

(** One call [session.post(url, params=params, data=data)]. *)
Record PostCall : Type :=
  { post_url : string;
    post_params : list (string * json);
    post_data : list (string * string) }.

(** [models.TranslatedPart(text, candidates)]. *)
Record TranslatedPart : Type := { part_text : json; part_candidates : json }.

Record ExtraData : Type :=
  { extra_confidence : json;
    extra_parts : list TranslatedPart;
    extra_origin_pronunciation : json;
    extra_parsed : json }.

(** [models.Translated(src, dest, origin, text, pronunciation, parts,
    extra_data, response)].  [src] is whatever the response put there. *)
Record Translated : Type :=
  { tr_src : json;
    tr_dest : string;
    tr_origin : string;
    tr_text : string;
    tr_pronunciation : json;
    tr_parts : list TranslatedPart;
    tr_extra_data : ExtraData;
    tr_response : Response }.

(** [models.Detected(lang, confidence, response)]. *)
Record Detected : Type :=
  { det_lang : json; det_confidence : json; det_response : Response }.

(** The fields of [self] the methods read; [session] answers a post with a
    response or raises. *)
Record AiohttpTranslator : Type :=
  { raise_exception : bool;
    service_urls : list string;
    client_type : string;
    session : PostCall -> exn + Response }.

(** Computations that may raise. *)
Definition ebind {A B : Type} (m : exn + A) (k : A -> exn + B) : exn + B :=
  match m with
  | inl e => inl e
  | inr a => k a
  end.

Notation "'let?' x ':=' m 'in' k" := (ebind m (fun x => k))
  (at level 10, x pattern, m at level 100, k at level 200).

(** Computations that may raise and that post: the state is the list of
    the posts issued so far, oldest first. *)
Definition M (A : Type) : Type := list PostCall -> (exn + A) * list PostCall.

Definition ret {A : Type} (a : A) : M A := fun log => (inr a, log).
Definition raise {A : Type} (e : exn) : M A := fun log => (inl e, log).
Definition lift {A : Type} (m : exn + A) : M A := fun log => (m, log).
Definition bind {A B : Type} (m : M A) (k : A -> M B) : M B :=
  fun log =>
    match m log with
    | (inl e, log') => (inl e, log')
    | (inr a, log') => k a log'
    end.

Notation "'let*' x ':=' m 'in' k" := (bind m (fun x => k))
  (at level 10, x pattern, m at level 100, k at level 200).

(** [await self.session.post(...)]. *)
Definition post (self : AiohttpTranslator) (call : PostCall) : M Response :=
  fun log => (session self call, log ++ [call]).

(** [v[i1][i2]...]. *)
Fixpoint getpath (v : json) (path : list nat) : exn + json :=
  match path with
  | [] => inr v
  | i :: path' => let? x := PyObj.getitem v i in getpath x path'
  end.

(** [k in m] on a dictionary. *)
Definition py_in (k : string) (m : gmap string string) : bool :=
  bool_decide (is_Some (m !! k)).

(** ** The client *)

Definition RPC_ID : string := "MkEWBc".

(** Modelled from the spec: [urls.TRANSLATE_RPC], the template of the
    module [aiogtrans.urls], which is not among the sources; the spec gives
    the path the host is followed by. *)
Definition TRANSLATE_RPC (host : string) : string :=
  host +:+ "/_/TranslateWebserverUi/data/batchexecute".

(** [_build_rpc_request(self, text, dest, src)]. *)
Definition _build_rpc_request (text dest src : string) : string :=
  let trans_info :=
    Json.dumps (JList [JList [JStr text; JStr src; JStr dest; JBool true]; JList [JNull]]) in
  let rpc :=
    Json.dumps (JList [JList [JList [JStr RPC_ID; JStr trans_info; JNull; JStr "generic"]]]) in
  rpc.

(** [random.choice(seq)], [r] being the draw. *)
Definition random_choice (r : nat) (seq : list string) : exn + string :=
  match seq !! (r mod length seq) with
  | Some x => inr x
  | None => inl IndexError
  end.

(** [_pick_service_url(self)]. *)
Definition _pick_service_url (self : AiohttpTranslator) (r : nat) : exn + string :=
  if (length (service_urls self) =? 1)%nat then
    match service_urls self !! 0 with
    | Some x => inr x
    | None => inl IndexError
    end
  else random_choice r (service_urls self).

(** The dictionary [params] of [_translate]. *)
Definition rpc_params : list (string * json) :=
  [("rpcids", JStr RPC_ID);
   ("bl", JStr "boq_translate-webserver_20201207.13_p0");
   ("soc-app", JInt 1);
   ("soc-platform", JInt 1);
   ("soc-device", JInt 1);
   ("rt", JStr "c")].

(** The post [_translate] issues to [host]. *)
Definition rpc_call (host text dest src : string) : PostCall :=
  let url := TRANSLATE_RPC host in
  let data := [("f.req", _build_rpc_request text dest src)] in
  let params := rpc_params in
  {| post_url := url; post_params := params; post_data := data |}.

(** [_translate(self, text, dest, src)]. *)
Definition _translate (self : AiohttpTranslator) (text dest src : string) (r : nat)
  : M (string * Response) :=
  let* host := lift (_pick_service_url self r) in
  let* request := post self (rpc_call host text dest src) in
  if negb (status request =? 200)%Z && raise_exception self then
    raise (StatusException (status request) (service_urls self))
  else
    let text := body request in
    ret (text, request).

(** *** The framing loop of [translate] *)

(** One turn of [for index, char in enumerate(line)]. *)
Definition scan_char (line : string) (index : nat) (char : ascii)
  (st : bool * (nat * nat)) : bool * (nat * nat) :=
  let '(is_in_string, (n_open, n_close)) := st in
  let is_in_string :=
    if Ascii.eqb char PyStr.dquote
       && negb (PyStr.char_at_is line (Nat.max 0 (index - 1)) PyStr.backslash)
    then negb is_in_string else is_in_string in
  if negb is_in_string then
    if Ascii.eqb char PyStr.lbracket then (is_in_string, (S n_open, n_close))
    else if Ascii.eqb char PyStr.rbracket then (is_in_string, (n_open, S n_close))
    else (is_in_string, (n_open, n_close))
  else (is_in_string, (n_open, n_close)).

(** The turns from [index] on, [rest] being [line[index:]]. *)
Fixpoint scan_from (line : string) (index : nat) (rest : string)
  (st : bool * (nat * nat)) : bool * (nat * nat) :=
  match rest with
  | "" => st
  | String char rest' => scan_from line (S index) rest' (scan_char line index char st)
  end.

(** The inner loop on one line: [is_in_string = False], then every
    character; the flag it ends with, and the two counts. *)
Definition scan_line (line : string) (counts : nat * nat) : bool * (nat * nat) :=
  scan_from line 0 line (false, counts).

(** A second reading of the inner loop, proved equal to it below. *)

(** [scan_char] once the subscript [line[max(0, index - 1)]] is read as
    the flag [escaped]: the character before is a backslash. *)
Definition scan_step (escaped : bool) (char : ascii) (st : bool * (nat * nat))
  : bool * (nat * nat) :=
  let '(is_in_string, (n_open, n_close)) := st in
  let is_in_string :=
    if Ascii.eqb char PyStr.dquote && negb escaped then negb is_in_string else is_in_string in
  if negb is_in_string then
    if Ascii.eqb char PyStr.lbracket then (is_in_string, (S n_open, n_close))
    else if Ascii.eqb char PyStr.rbracket then (is_in_string, (n_open, S n_close))
    else (is_in_string, (n_open, n_close))
  else (is_in_string, (n_open, n_close)).

(** The scan as a fold that remembers whether it just read a backslash. *)
Fixpoint scan_prev (escaped : bool) (rest : string) (st : bool * (nat * nat))
  : bool * (nat * nat) :=
  match rest with
  | "" => st
  | String char rest' =>
      scan_prev (Ascii.eqb char PyStr.backslash) rest' (scan_step escaped char st)
  end.

(** The variables of the outer loop. *)
Record FrameState : Type :=
  { token_found : bool;
    square_bracket_counts : nat * nat;
    resp : string }.

Definition frame_init : FrameState :=
  {| token_found := false; square_bracket_counts := (0, 0); resp := "" |}.

(** [for line in lines]: the state the loop ends in, and the lines a
    [break] left unread. *)
Fixpoint frame_loop (lines : list string) (st : FrameState) : FrameState * list string :=
  match lines with
  | [] => (st, [])
  | line :: rest =>
      let found :=
        token_found st || PyStr.contains (PyStr.quoted RPC_ID) (PyStr.take 30 line) in
      if negb found then
        frame_loop rest
          {| token_found := found;
             square_bracket_counts := square_bracket_counts st;
             resp := resp st |}
      else
        let counts := snd (scan_line line (square_bracket_counts st)) in
        let st' :=
          {| token_found := found;
             square_bracket_counts := counts;
             resp := resp st +:+ line |} in
        if (fst counts =? snd counts)%nat then (st', rest)
        else frame_loop rest st'
  end.

(** Lines 229 to 249 of [translate]: the text handed to [json.loads]. *)
Definition frame (data : string) : string :=
  resp (fst (frame_loop (PyStr.split PyStr.newline data) frame_init)).

(** *** Decoding, and [translate] itself *)

(** [TranslatedPart(part[0], part[1] if len(part) >= 2 else [])]. *)
Definition make_part (part : json) : exn + TranslatedPart :=
  let? text := PyObj.getitem part 0 in
  let? n := PyObj.len part in
  let? candidates := if (2 <=? n)%nat then PyObj.getitem part 1 else inr (JList []) in
  inr {| part_text := text; part_candidates := candidates |}.

(** An entry made of a text followed by [more]. *)
Definition entry_of (p : string * list json) : json := JList (JStr (fst p) :: snd p).

(** The part [make_part] builds from it. *)
Definition part_of (p : string * list json) : TranslatedPart :=
  {| part_text := JStr (fst p);
     part_candidates := match snd p with
                        | second :: _ => second
                        | [] => JList []
                        end |}.

(** [list(map(f, items))] for an [f] that may raise. *)
Fixpoint map_raising {A B : Type} (f : A -> exn + B) (items : list A) : exn + list B :=
  match items with
  | [] => inr []
  | x :: rest =>
      let? y := f x in
      let? ys := map_raising f rest in
      inr (y :: ys)
  end.

(** The argument [str.join] accepts: every item a [str]. *)
Definition as_str (v : json) : exn + string :=
  match v with
  | JStr s => inr s
  | _ => inl TypeError
  end.

(** The two steps [if src == "auto": try: src = ... except: pass]. *)
Definition resolve_detected_src (parsed src : json) : json :=
  let src :=
    if PyObj.eq_str src "auto" then
      match PyObj.getitem parsed 2 with
      | inr v => v
      | inl _ => src
      end
    else src in
  let src :=
    if PyObj.eq_str src "auto" then
      match getpath parsed [0; 2] with
      | inr v => v
      | inl _ => src
      end
    else src in
  src.

(** [x = None; try: x = parsed[...] except: pass]. *)
Definition optional_path (parsed : json) (path : list nat) : json :=
  match getpath parsed path with
  | inr v => v
  | inl _ => JNull
  end.

(** Lines 254 to 307 of [translate]: from the parsed payload to the
    result. *)
Definition decode (parsed : json) (src dest origin : string) (response : Response)
  : exn + Translated :=
  let? should_spacing := getpath parsed [1; 0; 0; 3] in
  let? entries := getpath parsed [1; 0; 0; 5] in
  let? items := PyObj.iter entries in
  let? translated_parts := map_raising make_part items in
  let? texts := map_raising as_str (map part_text translated_parts) in
  let translated := PyStr.join (if PyObj.truthy should_spacing then " " else "") texts in
  let src := resolve_detected_src parsed (JStr src) in
  let confidence := JNull in
  let origin_pronunciation := optional_path parsed [0; 0] in
  let pronunciation := optional_path parsed [1; 0; 0; 1] in
  let extra_data :=
    {| extra_confidence := confidence;
       extra_parts := translated_parts;
       extra_origin_pronunciation := origin_pronunciation;
       extra_parsed := parsed |} in
  inr {| tr_src := src;
         tr_dest := dest;
         tr_origin := origin;
         tr_text := translated;
         tr_pronunciation := pronunciation;
         tr_parts := translated_parts;
         tr_extra_data := extra_data;
         tr_response := response |}.

(** The shape of the codes of the table [LANGUAGES]: ASCII, lower-case,
    without underscore. *)
Definition canonical_code (code : string) : bool :=
  PyStr.is_ascii code
  && String.eqb (PyStr.lower code) code
  && Nat.eqb (PyStr.count PyStr.underscore code) 0.

(** [tag.lower().split("_", 1)[0]]. *)
Definition normalize (tag : string) : string :=
  match PyStr.split1 PyStr.underscore (PyStr.lower tag) with
  | prefix :: _ => prefix
  | [] => ""
  end.

Section Client.

(** The tables of [aiogtrans.constants], which is not among the sources:
    codes to names, aliases to codes, names to codes. *)
Variables LANGUAGES SPECIAL_CASES LANGCODES : gmap string string.

(** [json.loads], [None] standing for its [JSONDecodeError]. *)
Variable json_loads : string -> option json.

(** Lines 210 to 216 of [translate]. *)
Definition resolve_src (src : string) : exn + string :=
  if negb (String.eqb src "auto") && negb (py_in src LANGUAGES) then
    match SPECIAL_CASES !! src with
    | Some code => inr code
    | None =>
        match LANGCODES !! src with
        | Some code => inr code
        | None => inl (ValueError ("Invalid Source Language: " +:+ src))
        end
    end
  else inr src.

(** Lines 218 to 224 of [translate]. *)
Definition resolve_dest (dest : string) : exn + string :=
  if negb (py_in dest LANGUAGES) then
    match SPECIAL_CASES !! dest with
    | Some code => inr code
    | None =>
        match LANGCODES !! dest with
        | Some code => inr code
        | None => inl (ValueError ("Invalid Destination Language: " +:+ dest))
        end
    end
  else inr dest.

(** Lines 251 and 252 of [translate]: the two calls of [json.loads]. *)
Definition parse_response (resp : string) : exn + json :=
  let? data :=
    match json_loads resp with
    | Some v => inr v
    | None => inl JSONDecodeError
    end in
  let? inner := getpath data [0; 2] in
  match inner with
  | JStr s =>
      match json_loads s with
      | Some v => inr v
      | None => inl JSONDecodeError
      end
  | _ => inl TypeError
  end.

(** [translate(self, text, dest, src)]; [r] is the draw of
    [random.choice], should the call make one. *)
Definition translate (self : AiohttpTranslator) (text dest src : string) (r : nat)
  : M Translated :=
  let dest := normalize dest in
  let src := normalize src in
  let* src := lift (resolve_src src) in
  let* dest := lift (resolve_dest dest) in
  let origin := text in
  let* (data, response) := _translate self text dest src r in
  let resp := frame data in
  let* parsed := lift (parse_response resp) in
  lift (decode parsed src dest origin response).

(** [detect(self, text)]. *)
Definition detect (self : AiohttpTranslator) (text : string) (r : nat) : M Detected :=
  let* translated := translate self text "en" "auto" r in
  ret {| det_lang := tr_src translated;
         det_confidence := extra_confidence (tr_extra_data translated);
         det_response := tr_response translated |}.

End Client.

(** *** [_parse_extra_data] *)

(** The dictionary [response_parts_name_mapping], in the order it is
    written. *)
Definition response_parts_name_mapping : list (nat * string) :=
  [(0, "translation");
   (1, "all-translations");
   (2, "original-language");
   (5, "possible-translations");
   (6, "confidence");
   (7, "possible-mistakes");
   (8, "language");
   (11, "synonyms");
   (12, "definitions");
   (13, "examples");
   (14, "see-also")].

(** [data[index] if (index < len(data) and data[index]) else None]. *)
Definition extra_value (data : json) (index : nat) : exn + json :=
  let? n := PyObj.len data in
  if (index <? n)%nat then
    let? v := PyObj.getitem data index in
    if PyObj.truthy v then PyObj.getitem data index else inr JNull
  else inr JNull.

(** [for index, category in mapping.items(): extra[category] = ...]. *)
Fixpoint parse_extra_loop (data : json) (mapping : list (nat * string))
  (extra : gmap string json) : exn + gmap string json :=
  match mapping with
  | [] => inr extra
  | (index, category) :: rest =>
      let? v := extra_value data index in
      parse_extra_loop data rest (<[category := v]> extra)
  end.

(** [_parse_extra_data(self, data)]. *)
Definition _parse_extra_data (data : json) : exn + gmap string json :=
  parse_extra_loop data response_parts_name_mapping ∅.

(** *** Shapes of payloads used in the statements below *)

(** [isinstance(v, str)]. *)
Definition is_str (v : json) : bool :=
  match v with
  | JStr _ => true
  | _ => false
  end.

(** An entry whose first element is any value. *)
Definition raw_entry (p : json * list json) : json := JList (fst p :: snd p).

(** A character [json.dumps] prints as itself: printable ASCII, neither
    the double quote nor the backslash. *)
Definition plain (c : ascii) : bool :=
  ((32 <=? nat_of_ascii c) && (nat_of_ascii c <=? 126))%nat
  && negb (Ascii.eqb c PyStr.dquote) && negb (Ascii.eqb c PyStr.backslash).

(** [s] between two escaped quotes (a backslash, then the quote). *)
Definition escaped_quoted (s : string) : string :=
  String PyStr.backslash
    (String PyStr.dquote (s +:+ String PyStr.backslash (String PyStr.dquote ""))).

(** A character between space and tilde. *)
Definition printable (c : ascii) : bool :=
  ((32 <=? nat_of_ascii c) && (nat_of_ascii c <=? 126))%nat.

(** What [_parse_extra_data] stores for [index] when [data] is the list
    [items]. *)
Definition extra_of (items : list json) (index : nat) : json :=
  match items !! index with
  | Some v => if PyObj.truthy v then v else JNull
  | None => JNull
  end.

(** *** Readings of the framing loop used in the statements below *)

(** Every double quote of [s] comes right after a backslash, [escaped]
    telling whether the character before [s] is one. *)
Fixpoint quotes_escaped (escaped : bool) (s : string) : bool :=
  match s with
  | "" => true
  | String c rest =>
      (negb (Ascii.eqb c PyStr.dquote) || escaped)
      && quotes_escaped (Ascii.eqb c PyStr.backslash) rest
  end.


(** The counts after the lines of [region], scanned one after the other. *)
Fixpoint scan_lines (region : list string) (counts : nat * nat) : nat * nat :=
  match region with
  | [] => counts
  | line :: rest => scan_lines rest (snd (scan_line line counts))
  end.

(** [region] is not empty, the counts are equal after its last line and
    after no line before it. *)
Fixpoint balances_at_end (region : list string) (counts : nat * nat) : bool :=
  match region with
  | [] => false
  | line :: rest =>
      let counts' := snd (scan_line line counts) in
      match rest with
      | [] => (fst counts' =? snd counts')%nat
      | _ :: _ => negb (fst counts' =? snd counts')%nat && balances_at_end rest counts'
      end
  end.

(** ** The encoder over the whole of [str]

    A Python [str] holds any code point below 0x110000, the surrogates
    included; the strings of this development hold those below 256.
    What [json.dumps] prints for the others, and what [json.loads] reads
    back, is given here for the properties that depend on it. *)

Module Unicode.

(** A Python [str] in full: its code points, each below 0x110000. *)
Definition ustr : Type := list N.

Definition of_string (s : string) : ustr := map N_of_ascii (list_ascii_of_string s).

(** U+D800 to U+DBFF, and U+DC00 to U+DFFF. *)
Definition high_surrogate (n : N) : bool := ((55296 <=? n) && (n <=? 56319))%N.
Definition low_surrogate (n : N) : bool := ((56320 <=? n) && (n <=? 57343))%N.

(** A code point that is no surrogate. *)
Definition scalar (n : N) : bool :=
  (n <? 1114112)%N && negb (high_surrogate n) && negb (low_surrogate n).

(** ['{0:04x}'.format(n)] *)
Definition hex4 (n : N) : string :=
  let digit (d : N) := Json.hex_digit (N.to_nat d) in
  String (digit ((n / 4096) mod 16)%N)
    (String (digit ((n / 256) mod 16)%N)
       (String (digit ((n / 16) mod 16)%N) (String (digit (n mod 16)%N) ""))).

(** One character, as [ensure_ascii] prints it ([py_encode_basestring_ascii]):
    a character from U+10000 on is printed as its two surrogates. *)
Definition escape_codepoint (n : N) : string :=
  if (n =? 34)%N then String PyStr.backslash (String PyStr.dquote "")
  else if (n =? 92)%N then String PyStr.backslash (String PyStr.backslash "")
  else if (n =? 10)%N then String PyStr.backslash "n"
  else if (n =? 13)%N then String PyStr.backslash "r"
  else if (n =? 9)%N then String PyStr.backslash "t"
  else if (n =? 8)%N then String PyStr.backslash "b"
  else if (n =? 12)%N then String PyStr.backslash "f"
  else if ((32 <=? n) && (n <=? 126))%N then String (ascii_of_N n) ""
  else if (n <? 65536)%N then String PyStr.backslash ("u" +:+ hex4 n)
  else
    let v := (n - 65536)%N in
    let s1 := N.lor 55296 (N.land (N.shiftr v 10) 1023) in
    let s2 := N.lor 56320 (N.land v 1023) in
    String PyStr.backslash ("u" +:+ hex4 s1) +:+ String PyStr.backslash ("u" +:+ hex4 s2).

Fixpoint escape_ustr (s : ustr) : string :=
  match s with
  | [] => ""
  | n :: rest => escape_codepoint n +:+ escape_ustr rest
  end.

Definition dumps_ustr (s : ustr) : string := PyStr.quoted (escape_ustr s).

(** [_build_rpc_request] on such strings: [json.dumps] of the inner
    list, then of the wrapper around it. *)
Definition inner_json (text dest src : ustr) : string :=
  "[[" +:+ dumps_ustr text +:+ "," +:+ dumps_ustr src +:+ "," +:+ dumps_ustr dest
       +:+ ",true],[null]]".

Definition build_rpc_request (text dest src : ustr) : string :=
  "[[[" +:+ Json.dumps_str RPC_ID +:+ "," +:+ Json.dumps_str (inner_json text dest src)
        +:+ ",null," +:+ Json.dumps_str "generic" +:+ "]]]".

(** *** Reading a string back ([py_scanstring]) *)

Definition hex_value_N (c : ascii) : option N := option_map N.of_nat (Json.hex_value c).

(** The code units of the body of a string literal, from after its opening
    quote: an escape [\uXXXX] is one unit. *)
Fixpoint units (s : string) : option (list N * string) :=
  match s with
  | "" => None
  | String c rest =>
      if Ascii.eqb c PyStr.dquote then Some ([], rest)
      else if Ascii.eqb c PyStr.backslash then
        match rest with
        | String e rest' =>
            if Ascii.eqb e "u" then
              match rest' with
              | String h1 (String h2 (String h3 (String h4 rest''))) =>
                  match hex_value_N h1, hex_value_N h2, hex_value_N h3, hex_value_N h4 with
                  | Some a, Some b, Some c', Some d =>
                      match units rest'' with
                      | Some (t, tl) => Some ((((a * 16 + b) * 16 + c') * 16 + d)%N :: t, tl)
                      | None => None
                      end
                  | _, _, _, _ => None
                  end
              | _ => None
              end
            else
              match Json.unescape e, units rest' with
              | Some c', Some (t, tl) => Some (N_of_ascii c' :: t, tl)
              | _, _ => None
              end
        | "" => None
        end
      else
        match units rest with
        | Some (t, tl) => Some (N_of_ascii c :: t, tl)
        | None => None
        end
  end.

(** A high surrogate followed by a low one is the character they encode. *)
Fixpoint pair_surrogates (l : list N) : list N :=
  match l with
  | [] => []
  | a :: rest =>
      match rest with
      | b :: rest' =>
          if high_surrogate a && low_surrogate b then
            (65536 + N.lor (N.shiftl (a - 55296) 10) (b - 56320))%N :: pair_surrogates rest'
          else a :: pair_surrogates rest
      | [] => [a]
      end
  end.

Definition scan_ustr (s : string) : option (ustr * string) :=
  match units s with
  | Some (l, tl) => Some (pair_surrogates l, tl)
  | None => None
  end.

(** The code units [json.dumps] prints for a character. *)
Definition code_units (n : N) : list N :=
  if (n <? 65536)%N then [n]
  else [N.lor 55296 (N.land (N.shiftr (n - 65536) 10) 1023);
        N.lor 56320 (N.land (n - 65536) 1023)].

Definition cons_units (l : list N) (r : option (list N * string)) : option (list N * string) :=
  match r with
  | Some (t, tl) => Some ((l ++ t)%list, tl)
  | None => None
  end.

(** A string without surrogates, as an encoded text decodes to. *)
Definition proper (s : ustr) : bool := forallb scalar s.

End Unicode.

(** ** Sample data for the examples *)

Module Sample.
Import PyStr.

(** A few entries of the three tables, as the upstream package has
    them. *)
Definition LANGUAGES : gmap string string :=
  <["en" := "english"]> (<["fr" := "french"]> (<["et" := "estonian"]>
    (<["zh-cn" := "chinese (simplified)"]> ∅))).
Definition SPECIAL_CASES : gmap string string := <["ee" := "et"]> ∅.
Definition LANGCODES : gmap string string :=
  <["english" := "en"]> (<["french" := "fr"]> (<["estonian" := "et"]>
    (<["chinese (simplified)" := "zh-cn"]> ∅))).

(** A client whose session answers every post with the same response. *)
Definition client (urls : list string) (raising : bool) (answer : Response)
  : AiohttpTranslator :=
  {| raise_exception := raising;
     service_urls := urls;
     client_type := "tw-ob";
     session := fun _ => inr answer |}.

(** The payload of a reply: [Hello world] in two parts, detected as
    French. *)
Definition payload : string :=
  "[[null,null,'fr'],[[[null,null,null,true,null,[['Hello',['a','b']],['world']]]]],'fr']".

(** The text between the quotes of a JSON string whose value is [s], in
    the notation of [lit]. *)
Definition embedded (s : string) : string :=
  String.concat (String backslash "'") (split "'"%char s).

(** A reply as the endpoint frames it: a guard line, a length, the line
    of the reply, and lines that follow it. *)
Definition reply_body : string :=
  lit (")]}'||412|[['wrb.fr','MkEWBc','" +:+ embedded payload
       +:+ "',null,null,null,'generic']]|57|[['di',12],['af.httprm',11]]|25|[['e',4,null,null,130]]").

(** A one-line reply that is valid JSON and on which the scanner ends
    inside a string: its last string ends with an escaped backslash. *)
Definition unbalanced_body : string :=
  lit ("[['wrb.fr','MkEWBc','"
       +:+ embedded "[[null,null,'fr'],[[[null,null,null,true,null,[['Hi']]]]],'fr']"
       +:+ "','x" +:+ String backslash (String backslash "']]")).

End Sample.

(** * Properties *)

#[local] Arguments String.append !_ _ / : simpl nomatch.

(** ** Strings *)

Module PyStrFacts.
Import PyStr.

Lemma append_nil_r (s : string) : s +:+ "" = s.
Proof. induction s as [|c s IH]; cbn; [reflexivity | now f_equal]. Qed.

Lemma append_assoc (a b c : string) : (a +:+ b) +:+ c = a +:+ (b +:+ c).
Proof. induction a as [|x a IH]; cbn; [reflexivity | now f_equal]. Qed.

Lemma append_snoc (a : string) (c : ascii) (b : string) :
  (a +:+ String c "") +:+ b = a +:+ String c b.
Proof. now rewrite append_assoc. Qed.

Lemma length_snoc (a : string) (c : ascii) :
  String.length (a +:+ String c "") = S (String.length a).
Proof. induction a as [|x a IH]; cbn; [reflexivity | now f_equal]. Qed.

Lemma last_is_snoc (ch : ascii) (a : string) (c : ascii) :
  last_is ch (a +:+ String c "") = Ascii.eqb c ch.
Proof.
  induction a as [|x a IH]; simpl; [reflexivity |].
  rewrite IH. destruct a; reflexivity.
Qed.

Lemma last_is_app (ch : ascii) (a b : string) :
  last_is ch (a +:+ b) = if String.eqb b "" then last_is ch a else last_is ch b.
Proof.
  induction a as [|x a IH]; simpl.
  - destruct b; reflexivity.
  - rewrite IH. destruct b as [|y b]; simpl.
    + rewrite append_nil_r. reflexivity.
    + destruct a; reflexivity.
Qed.

Lemma get_last (ch : ascii) (pre : string) (x : ascii) (rest : string) :
  char_at_is (String x pre +:+ rest) (String.length (String x pre) - 1) ch
  = last_is ch (String x pre).
Proof.
  revert x. induction pre as [|y pre IH]; intros x.
  - reflexivity.
  - specialize (IH y). simpl in *. rewrite Nat.sub_0_r in IH.
    unfold char_at_is in *. simpl. exact IH.
Qed.

Lemma count_app (ch : ascii) (a b : string) :
  count ch (a +:+ b) = count ch a + count ch b.
Proof. induction a as [|x a IH]; simpl; [reflexivity | rewrite IH; lia]. Qed.

Lemma map_chars_app (f : ascii -> ascii) (a b : string) :
  map_chars f (a +:+ b) = map_chars f a +:+ map_chars f b.
Proof. induction a as [|x a IH]; simpl; [reflexivity | now f_equal]. Qed.

Lemma lower_app (a b : string) : lower (a +:+ b) = lower a +:+ lower b.
Proof. apply map_chars_app. Qed.

End PyStrFacts.

(** ** The scanner of one line *)

Module ScanFacts.
Import PyStr PyStrFacts.

Lemma scan_char_step (pre : string) (char : ascii) (rest : string) st :
  scan_char (pre +:+ String char rest) (String.length pre) char st
  = scan_step (last_is backslash pre) char st.
Proof.
  unfold scan_char, scan_step.
  destruct st as [f [o c]].
  destruct (Ascii.eqb char dquote) eqn:Hq; [| reflexivity].
  apply Ascii.eqb_eq in Hq. subst char.
  destruct pre as [|x pre].
  - reflexivity.
  - rewrite Nat.max_0_l. rewrite get_last. reflexivity.
Qed.

Lemma scan_from_prev (rest pre : string) st :
  scan_from (pre +:+ rest) (String.length pre) rest st
  = scan_prev (last_is backslash pre) rest st.
Proof.
  revert pre st. induction rest as [|char rest IH]; intros pre st.
  - reflexivity.
  - simpl. rewrite scan_char_step.
    specialize (IH (pre +:+ String char "") (scan_step (last_is backslash pre) char st)).
    rewrite append_snoc, length_snoc, last_is_snoc in IH. exact IH.
Qed.

(** The inner loop of the source is that fold, started unescaped and
    outside a string. *)
Lemma scan_line_prev (line : string) (counts : nat * nat) :
  scan_line line counts = scan_prev false line (false, counts).
Proof. unfold scan_line. apply (scan_from_prev line ""). Qed.

Lemma scan_prev_app (a b : string) (escaped : bool) st :
  scan_prev escaped (a +:+ b) st
  = scan_prev (if String.eqb a "" then escaped else last_is backslash a) b
      (scan_prev escaped a st).
Proof.
  revert escaped st. induction a as [|x a IH]; intros escaped st.
  - reflexivity.
  - simpl. rewrite IH. destruct a as [|y a]; reflexivity.
Qed.

(** Inside a string, a text without a quote changes nothing. *)
Lemma scan_prev_inside (s : string) (escaped : bool) (counts : nat * nat) :
  count dquote s = 0 ->
  scan_prev escaped s (true, counts) = (true, counts).
Proof.
  revert escaped. induction s as [|x s IH]; intros escaped H.
  - reflexivity.
  - simpl in H. destruct (Ascii.eqb x dquote) eqn:Hx; [discriminate |].
    simpl. unfold scan_step. destruct counts as [o c]. rewrite Hx. simpl.
    apply IH. exact H.
Qed.

(** A text without a bracket leaves the counts alone. *)
Lemma scan_prev_no_bracket (s : string) (escaped : bool) (f : bool) (counts : nat * nat) :
  count lbracket s = 0 -> count rbracket s = 0 ->
  snd (scan_prev escaped s (f, counts)) = counts.
Proof.
  revert escaped f. induction s as [|x s IH]; intros escaped f Hl Hr.
  - reflexivity.
  - simpl in Hl, Hr.
    destruct (Ascii.eqb x lbracket) eqn:Hxl; [discriminate |].
    destruct (Ascii.eqb x rbracket) eqn:Hxr; [discriminate |].
    simpl. unfold scan_step. destruct counts as [o c]. rewrite Hxl, Hxr.
    destruct (Ascii.eqb x dquote && negb escaped); destruct f; simpl; apply IH; assumption.
Qed.

(** Outside a string, a text without a quote counts every bracket. *)
Lemma scan_prev_outside (s : string) (escaped : bool) (n_open n_close : nat) :
  count dquote s = 0 ->
  scan_prev escaped s (false, (n_open, n_close))
  = (false, (n_open + count lbracket s, n_close + count rbracket s)).
Proof.
  revert escaped n_open n_close.
  induction s as [|x s IH]; intros escaped o c H.
  - simpl. now rewrite !Nat.add_0_r.
  - simpl in H. destruct (Ascii.eqb x dquote) eqn:Hx; [discriminate |].
    simpl. unfold scan_step. rewrite Hx. simpl.
    destruct (Ascii.eqb x lbracket) eqn:Hxl.
    + apply Ascii.eqb_eq in Hxl. subst x. simpl. rewrite IH by exact H.
      do 2 f_equal; lia.
    + destruct (Ascii.eqb x rbracket) eqn:Hxr; rewrite IH by exact H; do 2 f_equal; lia.
Qed.

End ScanFacts.

(** ** The framing loop *)

Module FrameFacts.
Import PyStr PyStrFacts ScanFacts.

(** A quoted text met outside a string is skipped whole. *)
Lemma scan_prev_quoted (s post : string) (counts : nat * nat) :
  count dquote s = 0 ->
  last_is backslash s = false ->
  scan_prev false (quoted s +:+ post) (false, counts)
  = scan_prev false post (false, counts).
Proof.
  intros Hq Hb. unfold quoted. simpl.
  rewrite append_snoc, scan_prev_app.
  destruct counts as [o c]. simpl.
  rewrite scan_prev_inside by exact Hq.
  destruct (String.eqb s ""); [| rewrite Hb]; reflexivity.
Qed.

Lemma scan_line_split (pre rest : string) (counts : nat * nat) :
  last_is backslash pre = false ->
  scan_line (pre +:+ rest) counts = scan_prev false rest (scan_line pre counts).
Proof.
  intros Hb. rewrite !scan_line_prev, scan_prev_app.
  destruct (String.eqb pre ""); [| rewrite Hb]; reflexivity.
Qed.

(** One turn of the outer loop on a line past the marker. *)
Lemma frame_loop_found (line : string) (rest : list string) (st : FrameState) :
  token_found st = true ->
  frame_loop (line :: rest) st
  = let counts := snd (scan_line line (square_bracket_counts st)) in
    let st' := {| token_found := true;
                  square_bracket_counts := counts;
                  resp := resp st +:+ line |} in
    if (fst counts =? snd counts)%nat then (st', rest) else frame_loop rest st'.
Proof. intros H. cbn [frame_loop]. rewrite H. reflexivity. Qed.

(** One turn of the outer loop on a line before the marker. *)
Lemma frame_loop_skip (line : string) (rest : list string) (st : FrameState) :
  token_found st = false ->
  contains (quoted RPC_ID) (take 30 line) = false ->
  frame_loop (line :: rest) st = frame_loop rest st.
Proof. intros H1 H2. cbn [frame_loop]. rewrite H1, H2. destruct st; simpl in *; now subst. Qed.

Lemma frame_loop_skip_all (pre rest : list string) (st : FrameState) :
  token_found st = false ->
  Forall (fun line => contains (quoted RPC_ID) (take 30 line) = false) pre ->
  frame_loop (pre ++ rest) st = frame_loop rest st.
Proof.
  intros H1 H2. induction H2 as [|line pre Hl _ IH]; [reflexivity |].
  rewrite <- app_comm_cons, frame_loop_skip by assumption. exact IH.
Qed.

(** One turn of the outer loop on the marker line. *)
Lemma frame_loop_marker (line : string) (rest : list string) (st : FrameState) :
  contains (quoted RPC_ID) (take 30 line) = true ->
  frame_loop (line :: rest) st
  = let counts := snd (scan_line line (square_bracket_counts st)) in
    let st' := {| token_found := true;
                  square_bracket_counts := counts;
                  resp := resp st +:+ line |} in
    if (fst counts =? snd counts)%nat then (st', rest) else frame_loop rest st'.
Proof. intros H. cbn [frame_loop]. rewrite H, orb_true_r. reflexivity. Qed.

End FrameFacts.

Section FramerClaims.
Import PyStr PyStrFacts ScanFacts FrameFacts.

(** C1, as the code has it.  The balance test runs after each line from
    the marker line on has been scanned and appended, and nothing makes
    it wait for a first bracket: when the marker line holds no bracket
    the counts are 0 and 0, the loop breaks on that line, the framed text
    is the marker line alone and every later line is left unread. *)
Theorem framing_stops_at_bracketless_marker_line
  (data : string) (pre post : list string) (m : string) :
  split newline data = pre ++ m :: post ->
  Forall (fun line => contains (quoted RPC_ID) (take 30 line) = false) pre ->
  contains (quoted RPC_ID) (take 30 m) = true ->
  count lbracket m = 0 ->
  count rbracket m = 0 ->
  frame_loop (split newline data) frame_init
  = ({| token_found := true; square_bracket_counts := (0, 0); resp := m |}, post)
  /\ frame data = m.
Proof.
  intros Hsplit Hpre Hm Hl Hr.
  assert (Hloop : frame_loop (split newline data) frame_init
                  = ({| token_found := true; square_bracket_counts := (0, 0);
                        resp := m |}, post)).
  { rewrite Hsplit, frame_loop_skip_all by (reflexivity || exact Hpre).
    rewrite frame_loop_marker by exact Hm.
    cbn [square_bracket_counts frame_init resp].
    rewrite scan_line_prev, scan_prev_no_bracket by assumption.
    reflexivity. }
  split; [exact Hloop |].
  unfold frame. rewrite Hloop. reflexivity.
Qed.

Lemma framing_stops_at_bracketless_marker_line_witness :
  frame_loop (split newline (lit ")]}'||'MkEWBc' 1|[[1]]|[2]")) frame_init
  = ({| token_found := true; square_bracket_counts := (0, 0);
        resp := lit "'MkEWBc' 1" |}, ["[[1]]"; "[2]"])
  /\ frame (lit ")]}'||'MkEWBc' 1|[[1]]|[2]") = lit "'MkEWBc' 1".
Proof.
  apply (framing_stops_at_bracketless_marker_line
           (lit ")]}'||'MkEWBc' 1|[[1]]|[2]")
           [lit ")]}'"; ""] ["[[1]]"; "[2]"] (lit "'MkEWBc' 1")).
  - reflexivity.
  - repeat constructor.
  - reflexivity.
  - reflexivity.
  - reflexivity.
Defined.

(** C1, as the claim states it, fails: on the body whose marker line is
    the quoted marker alone, followed by the line [[[1]]], the loop
    breaks on the marker line and leaves the second line unread. *)
Lemma framing_does_not_wait_for_a_bracket :
  ~ (forall (data : string) (pre post : list string) (m : string),
        split newline data = pre ++ m :: post ->
        Forall (fun line => contains (quoted RPC_ID) (take 30 line) = false) pre ->
        contains (quoted RPC_ID) (take 30 m) = true ->
        count lbracket m = 0 ->
        count rbracket m = 0 ->
        post <> [] ->
        snd (frame_loop (split newline data) frame_init) <> post).
Proof.
  intros H.
  apply (H (lit "'MkEWBc'|[[1]]") [] ["[[1]]"] (lit "'MkEWBc'"));
    try reflexivity; [constructor | discriminate].
Qed.

(** C10.  The flag [is_in_string] starts at [False] on every line: when
    a line past the marker ends inside a string (its last quote opened
    one) without balancing the counts, every bracket of a next line that
    holds no quote is counted, though it lies inside the string left
    open. *)
Theorem in_string_flag_is_reset_on_every_line
  (l1 l2 : string) (rest : list string) (st : FrameState) :
  token_found st = true ->
  fst (scan_line l1 (square_bracket_counts st)) = true ->
  fst (snd (scan_line l1 (square_bracket_counts st)))
    <> snd (snd (scan_line l1 (square_bracket_counts st))) ->
  count dquote l2 = 0 ->
  frame_loop (l1 :: l2 :: rest) st
  = let after1 := snd (scan_line l1 (square_bracket_counts st)) in
    let counts := (fst after1 + count lbracket l2, snd after1 + count rbracket l2) in
    let st2 := {| token_found := true;
                  square_bracket_counts := counts;
                  resp := (resp st +:+ l1) +:+ l2 |} in
    if (fst counts =? snd counts)%nat then (st2, rest) else frame_loop rest st2.
Proof.
  intros Hfound Hin Hopen Hq.
  rewrite frame_loop_found by exact Hfound. cbv zeta.
  destruct (Nat.eqb_spec (fst (snd (scan_line l1 (square_bracket_counts st))))
              (snd (snd (scan_line l1 (square_bracket_counts st))))); [contradiction |].
  rewrite frame_loop_found by reflexivity.
  cbn [square_bracket_counts resp]. cbv zeta.
  destruct (snd (scan_line l1 (square_bracket_counts st))) as [o c].
  rewrite scan_line_prev, scan_prev_outside by exact Hq.
  reflexivity.
Qed.

Lemma in_string_flag_is_reset_on_every_line_witness :
  frame_loop [lit "['MkEWBc','ab"; "c]]"; "tail"]
    {| token_found := true; square_bracket_counts := (1, 0); resp := "[" |}
  = ({| token_found := true; square_bracket_counts := (2, 2);
        resp := lit "[['MkEWBc','abc]]" |}, ["tail"]).
Proof.
  apply (in_string_flag_is_reset_on_every_line
           (lit "['MkEWBc','ab") "c]]" ["tail"]
           {| token_found := true; square_bracket_counts := (1, 0); resp := "[" |}).
  - reflexivity.
  - reflexivity.
  - discriminate.
  - reflexivity.
Defined.

End FramerClaims.

(** ** The encoder *)

Module JsonFacts.
Import PyStr PyStrFacts Json.

(** Induction on a value, with the items of a list and the members of a
    dictionary covered. *)
Lemma json_nested_ind (P : json -> Prop)
  (HNull : P JNull) (HBool : forall b, P (JBool b)) (HInt : forall z, P (JInt z))
  (HFloat : forall l, P (JFloat l)) (HStr : forall s, P (JStr s))
  (HList : forall items, Forall P items -> P (JList items))
  (HDict : forall members, Forall (fun kv => P (snd kv)) members -> P (JDict members))
  : forall v, P v.
Proof.
  exact
    (fix go (v : json) : P v :=
       match v with
       | JNull => HNull
       | JBool b => HBool b
       | JInt z => HInt z
       | JFloat l => HFloat l
       | JStr s => HStr s
       | JList items =>
           HList items
             ((fix all (l : list json) : Forall P l :=
                 match l with
                 | [] => @List.Forall_nil _ P
                 | x :: l' => @List.Forall_cons _ P x l' (go x) (all l')
                 end) items)
       | JDict members =>
           HDict members
             ((fix all (l : list (string * json)) : Forall (fun kv => P (snd kv)) l :=
                 match l with
                 | [] => @List.Forall_nil _ _
                 | kv :: l' =>
                     @List.Forall_cons _ (fun kv => P (snd kv)) kv l' (go (snd kv)) (all l')
                 end) members)
       end).
Qed.

Lemma concat_empty_app (a b : list string) :
  String.concat "" (a ++ b) = String.concat "" a +:+ String.concat "" b.
Proof.
  induction a as [|x a IH]; [reflexivity |].
  destruct a as [|y a].
  - simpl. destruct b; simpl; [now rewrite append_nil_r | reflexivity].
  - change (String.concat "" ((x :: y :: a) ++ b))
      with (x +:+ "" +:+ String.concat "" ((y :: a) ++ b)).
    rewrite IH. simpl. now rewrite append_assoc.
Qed.

Lemma join_tokens {A : Type} (f : A -> string) (g : A -> list string) (items : list A) :
  Forall (fun x => f x = String.concat "" (g x)) items ->
  join "," (map f items) = String.concat "" (sep_concat [","] (map g items)).
Proof.
  induction 1 as [|x items Hx _ IH]; [reflexivity |].
  destruct items as [|y items].
  - simpl. exact Hx.
  - change (join "," (map f (x :: y :: items)))
      with (f x +:+ "," +:+ join "," (map f (y :: items))).
    change (sep_concat [","] (map g (x :: y :: items)))
      with (g x ++ [","] ++ sep_concat [","] (map g (y :: items))).
    rewrite !concat_empty_app, IH, Hx. reflexivity.
Qed.

(** [json.dumps] with the separators [(",", ":")] prints the tokens with
    nothing between them. *)
Lemma dumps_compact (v : json) : dumps v = compact v.
Proof.
  unfold compact. induction v using json_nested_ind;
    try reflexivity; try (destruct b; reflexivity).
  - cbn [dumps tokens]. rewrite !concat_empty_app.
    rewrite (join_tokens dumps tokens items H). reflexivity.
  - cbn [dumps tokens]. rewrite !concat_empty_app.
    rewrite (join_tokens (fun kv => dumps_str (fst kv) +:+ ":" +:+ dumps (snd kv))
               (fun kv => [dumps_str (fst kv); ":"] ++ tokens (snd kv)) members).
    + reflexivity.
    + eapply Forall_impl; [exact H |]. intros kv Hkv. cbn beta in *.
      rewrite Hkv, concat_empty_app.
      change (String.concat "" [dumps_str (fst kv); ":"]) with (dumps_str (fst kv) +:+ ":").
      now rewrite append_assoc.
Qed.

End JsonFacts.

(** ** The language resolver *)

Module ResolveFacts.
Import PyStr PyStrFacts.

Lemma lower_upper_char (c : ascii) :
  (nat_of_ascii c <? 128)%nat = true -> lower_char c = c -> lower_char (upper_char c) = c.
Proof.
  destruct c as [[] [] [] [] [] [] [] []]; vm_compute; intros; congruence.
Qed.

Lemma lower_upper (s : string) :
  is_ascii s = true -> lower s = s -> lower (upper s) = s.
Proof.
  unfold is_ascii, lower, upper.
  induction s as [|c s IH]; [reflexivity |].
  cbn [all_chars map_chars]. intros Ha Hl.
  apply andb_true_iff in Ha as [Hc Hs]. injection Hl as Hlc Hls.
  rewrite lower_upper_char by assumption. f_equal. apply IH; assumption.
Qed.

Lemma split1_no_sep (sep : ascii) (s : string) :
  count sep s = 0 -> split1 sep s = [s].
Proof.
  induction s as [|c s IH]; [reflexivity |].
  cbn [count split1]. destruct (Ascii.eqb c sep); [discriminate |].
  intros H. rewrite (IH H). reflexivity.
Qed.

Lemma split1_at_sep (sep : ascii) (s rest : string) :
  count sep s = 0 -> split1 sep (s +:+ String sep rest) = [s; rest].
Proof.
  induction s as [|c s IH]; cbn [count].
  - intros _. simpl. now rewrite Ascii.eqb_refl.
  - destruct (Ascii.eqb c sep) eqn:Hc; [discriminate |].
    intros H. simpl. rewrite Hc, (IH H). reflexivity.
Qed.

Lemma split1_nonempty (sep : ascii) (s : string) : split1 sep s <> [].
Proof.
  destruct s as [|c s]; simpl; [discriminate |].
  destruct (Ascii.eqb c sep); [discriminate |].
  destruct (split1 sep s); discriminate.
Qed.

Lemma normalize_upper (L : string) :
  is_ascii L = true -> lower L = L -> count underscore L = 0 ->
  normalize (upper L) = L.
Proof.
  intros Ha Hl Hu. unfold normalize.
  rewrite lower_upper, split1_no_sep by assumption. reflexivity.
Qed.

Lemma normalize_region (L rest : string) :
  lower L = L -> count underscore L = 0 ->
  normalize (L +:+ String underscore rest) = L.
Proof.
  intros Hl Hu. unfold normalize.
  rewrite lower_app, Hl.
  change (lower (String underscore rest)) with (String underscore (lower rest)).
  rewrite split1_at_sep by assumption. reflexivity.
Qed.

Lemma py_in_true (k : string) (m : gmap string string) :
  py_in k m = true <-> is_Some (m !! k).
Proof. unfold py_in. apply bool_decide_eq_true. Qed.

Lemma py_in_false (k : string) (m : gmap string string) :
  py_in k m = false <-> m !! k = None.
Proof.
  unfold py_in. rewrite bool_decide_eq_false. split.
  - intros H. destruct (m !! k) eqn:E; [exfalso; apply H; eauto | reflexivity].
  - intros H [v Hv]. congruence.
Qed.

End ResolveFacts.

Section ResolverClaims.
Import PyStr PyStrFacts ResolveFacts.

Variables LANGUAGES SPECIAL_CASES LANGCODES : gmap string string.

Local Abbreviation src_of := (resolve_src LANGUAGES SPECIAL_CASES LANGCODES).
Local Abbreviation dest_of := (resolve_dest LANGUAGES SPECIAL_CASES LANGCODES).

Lemma resolve_dest_known (tag : string) :
  py_in tag LANGUAGES = true -> dest_of tag = inr tag.
Proof. intros H. unfold resolve_dest. rewrite H. reflexivity. Qed.

Lemma resolve_src_known (tag : string) :
  py_in tag LANGUAGES = true -> src_of tag = inr tag.
Proof.
  intros H. unfold resolve_src. rewrite H, andb_false_r. reflexivity.
Qed.

Lemma resolve_dest_unknown (tag : string) :
  LANGUAGES !! tag = None -> SPECIAL_CASES !! tag = None -> LANGCODES !! tag = None ->
  dest_of tag = inl (ValueError ("Invalid Destination Language: " +:+ tag)).
Proof.
  intros H1 H2 H3. unfold resolve_dest.
  apply py_in_false in H1. rewrite H1, H2, H3. reflexivity.
Qed.

Lemma resolve_src_unknown (tag : string) :
  tag <> "auto" ->
  LANGUAGES !! tag = None -> SPECIAL_CASES !! tag = None -> LANGCODES !! tag = None ->
  src_of tag = inl (ValueError ("Invalid Source Language: " +:+ tag)).
Proof.
  intros Ha H1 H2 H3. unfold resolve_src.
  apply py_in_false in H1. apply String.eqb_neq in Ha.
  rewrite Ha, H1, H2, H3. reflexivity.
Qed.

(** The only exception the source resolver raises is its [ValueError]. *)
Lemma resolve_src_raises (tag : string) (e : exn) :
  src_of tag = inl e -> e = ValueError ("Invalid Source Language: " +:+ tag).
Proof.
  unfold resolve_src.
  destruct (negb (String.eqb tag "auto") && negb (py_in tag LANGUAGES));
    destruct (SPECIAL_CASES !! tag); destruct (LANGCODES !! tag); congruence.
Qed.

(** C6.  The codes of the table [LANGUAGES] being lower-case ASCII
    without underscore, every recognised code [L] is what both
    [L.upper()] and [L] followed by an underscore and anything resolve to,
    as a destination and as a source: the tag is lower-cased and cut at
    its first underscore, and a code of [LANGUAGES] is kept as it is.  A
    tag that is not one is looked up in [SPECIAL_CASES], then in
    [LANGCODES]; found in neither, the [ValueError] raised names the tag
    and says whether it was the source or the destination. *)
Theorem language_tags_are_normalised_then_resolved (L anything tag : string) :
  (map_Forall (fun code _ => canonical_code code = true) LANGUAGES ->
   py_in L LANGUAGES = true ->
   dest_of (normalize (upper L)) = inr L
   /\ dest_of (normalize (L +:+ "_" +:+ anything)) = inr L
   /\ src_of (normalize (upper L)) = inr L
   /\ src_of (normalize (L +:+ "_" +:+ anything)) = inr L)
  /\ split1 underscore (lower tag) <> []
  /\ normalize tag = hd "" (split1 underscore (lower tag))
  /\ (py_in (normalize tag) LANGUAGES = true ->
      dest_of (normalize tag) = inr (normalize tag)
      /\ src_of (normalize tag) = inr (normalize tag))
  /\ (LANGUAGES !! normalize tag = None ->
      forall code, SPECIAL_CASES !! normalize tag = Some code ->
      dest_of (normalize tag) = inr code
      /\ (normalize tag <> "auto" -> src_of (normalize tag) = inr code))
  /\ (LANGUAGES !! normalize tag = None ->
      SPECIAL_CASES !! normalize tag = None ->
      forall code, LANGCODES !! normalize tag = Some code ->
      dest_of (normalize tag) = inr code
      /\ (normalize tag <> "auto" -> src_of (normalize tag) = inr code))
  /\ (LANGUAGES !! normalize tag = None ->
      SPECIAL_CASES !! normalize tag = None ->
      LANGCODES !! normalize tag = None ->
      dest_of (normalize tag)
      = inl (ValueError ("Invalid Destination Language: " +:+ normalize tag))
      /\ (normalize tag <> "auto" ->
          src_of (normalize tag)
          = inl (ValueError ("Invalid Source Language: " +:+ normalize tag)))).
Proof.
  split.
  { intros Hkeys HL.
    destruct (proj1 (py_in_true L LANGUAGES) HL) as [name Hname].
    apply Hkeys in Hname. unfold canonical_code in Hname.
    apply andb_true_iff in Hname as [Hname Hu].
    apply andb_true_iff in Hname as [Ha Hl].
    apply String.eqb_eq in Hl. apply Nat.eqb_eq in Hu.
    repeat split.
    - rewrite normalize_upper by assumption. now apply resolve_dest_known.
    - change (L +:+ "_" +:+ anything) with (L +:+ String underscore anything).
      rewrite normalize_region by assumption. now apply resolve_dest_known.
    - rewrite normalize_upper by assumption. now apply resolve_src_known.
    - change (L +:+ "_" +:+ anything) with (L +:+ String underscore anything).
      rewrite normalize_region by assumption. now apply resolve_src_known. }
  repeat split.
  - apply split1_nonempty.
  - now apply resolve_dest_known.
  - now apply resolve_src_known.
  - unfold resolve_dest.
    match goal with H : LANGUAGES !! _ = None |- _ => apply py_in_false in H; rewrite H end.
    match goal with H : SPECIAL_CASES !! _ = Some _ |- _ => rewrite H end. reflexivity.
  - intros Ha. unfold resolve_src. apply String.eqb_neq in Ha. rewrite Ha.
    match goal with H : LANGUAGES !! _ = None |- _ => apply py_in_false in H; rewrite H end.
    match goal with H : SPECIAL_CASES !! _ = Some _ |- _ => rewrite H end. reflexivity.
  - unfold resolve_dest.
    match goal with H : LANGUAGES !! _ = None |- _ => apply py_in_false in H; rewrite H end.
    match goal with H : SPECIAL_CASES !! _ = None |- _ => rewrite H end.
    match goal with H : LANGCODES !! _ = Some _ |- _ => rewrite H end. reflexivity.
  - intros Ha. unfold resolve_src. apply String.eqb_neq in Ha. rewrite Ha.
    match goal with H : LANGUAGES !! _ = None |- _ => apply py_in_false in H; rewrite H end.
    match goal with H : SPECIAL_CASES !! _ = None |- _ => rewrite H end.
    match goal with H : LANGCODES !! _ = Some _ |- _ => rewrite H end. reflexivity.
  - now apply resolve_dest_unknown.
  - intros Ha. now apply resolve_src_unknown.
Qed.

End ResolverClaims.

Lemma language_tags_are_normalised_then_resolved_witness :
  resolve_dest Sample.LANGUAGES Sample.SPECIAL_CASES Sample.LANGCODES
    (normalize (PyStr.upper "zh-cn")) = inr "zh-cn"
  /\ resolve_dest Sample.LANGUAGES Sample.SPECIAL_CASES Sample.LANGCODES
       (normalize ("zh-cn" +:+ "_" +:+ "Hant")) = inr "zh-cn"
  /\ resolve_src Sample.LANGUAGES Sample.SPECIAL_CASES Sample.LANGCODES
       (normalize (PyStr.upper "zh-cn")) = inr "zh-cn"
  /\ resolve_src Sample.LANGUAGES Sample.SPECIAL_CASES Sample.LANGCODES
       (normalize ("zh-cn" +:+ "_" +:+ "Hant")) = inr "zh-cn".
Proof.
  apply (proj1 (language_tags_are_normalised_then_resolved
                  Sample.LANGUAGES Sample.SPECIAL_CASES Sample.LANGCODES
                  "zh-cn" "Hant" "ZZ_top")).
  - unfold Sample.LANGUAGES.
    repeat (apply map_Forall_insert_2; [reflexivity |]).
    apply map_Forall_empty.
  - vm_compute. reflexivity.
Defined.

(** ** The decoder *)

Module DecodeFacts.
Import PyStr.

Lemma make_part_entry (p : string * list json) : make_part (entry_of p) = inr (part_of p).
Proof. destruct p as [t [|second more]]; reflexivity. Qed.

Lemma make_parts_entries (pairs : list (string * list json)) :
  map_raising make_part (map entry_of pairs) = inr (map part_of pairs).
Proof.
  induction pairs as [|p pairs IH]; [reflexivity |].
  cbn [map map_raising]. rewrite make_part_entry, IH. reflexivity.
Qed.

Lemma part_texts (pairs : list (string * list json)) :
  map_raising as_str (map part_text (map part_of pairs)) = inr (map fst pairs).
Proof.
  induction pairs as [|p pairs IH]; [reflexivity |].
  cbn [map map_raising part_of part_text as_str ebind]. rewrite IH. reflexivity.
Qed.

End DecodeFacts.

(** C4.  When [parsed[1][0][0][3]] is the boolean [b] and
    [parsed[1][0][0][5]] is a list of entries, each a text followed by
    [more], decoding succeeds; the parts are, in order, one per entry, its
    text the entry's first element and its candidates the entry's second
    element when [more] is not empty (the entry has two elements or more)
    and the empty list otherwise; the translated text is the texts joined
    by one space when [b] is true and by nothing when it is false. *)
Theorem decode_builds_parts_and_joins_texts
  (parsed : json) (b : bool) (pairs : list (string * list json))
  (src dest origin : string) (response : Response) :
  getpath parsed [1; 0; 0; 3] = inr (JBool b) ->
  getpath parsed [1; 0; 0; 5] = inr (JList (map entry_of pairs)) ->
  exists tr : Translated,
    decode parsed src dest origin response = inr tr
    /\ tr_parts tr = map part_of pairs
    /\ tr_text tr = PyStr.join (if b then " " else "") (map fst pairs).
Proof.
  intros H3 H5. unfold decode.
  rewrite H3, H5. cbn [ebind PyObj.iter].
  rewrite DecodeFacts.make_parts_entries. cbn [ebind].
  rewrite DecodeFacts.part_texts. cbn [ebind PyObj.truthy].
  eexists. split; [reflexivity |]. split; reflexivity.
Qed.

Lemma decode_builds_parts_and_joins_texts_witness :
  let parsed b :=
    JList [JList [];
           JList [JList [JList [JNull; JNull; JNull; JBool b; JNull;
                                JList [JList [JStr "Hello"; JList []];
                                       JList [JStr "world"; JList []]]]]]] in
  let response := {| status := 200; body := "" |} in
  (exists tr, decode (parsed true) "auto" "en" "x" response = inr tr
              /\ tr_parts tr = [ {| part_text := JStr "Hello"; part_candidates := JList [] |};
                                 {| part_text := JStr "world"; part_candidates := JList [] |} ]
              /\ tr_text tr = "Hello world")
  /\ (exists tr, decode (parsed false) "auto" "en" "x" response = inr tr
                 /\ tr_parts tr = [ {| part_text := JStr "Hello"; part_candidates := JList [] |};
                                    {| part_text := JStr "world"; part_candidates := JList [] |} ]
                 /\ tr_text tr = "Helloworld").
Proof.
  intros parsed response. split.
  - apply (decode_builds_parts_and_joins_texts (parsed true) true
             [("Hello", [JList []]); ("world", [JList []])]); reflexivity.
  - apply (decode_builds_parts_and_joins_texts (parsed false) false
             [("Hello", [JList []]); ("world", [JList []])]); reflexivity.
Defined.

Lemma decode_src (parsed : json) (src dest origin : string) (response : Response)
  (tr : Translated) :
  decode parsed src dest origin response = inr tr ->
  tr_src tr = resolve_detected_src parsed (JStr src).
Proof.
  unfold decode. intros H.
  repeat match type of H with
         | ebind ?m _ = inr _ => destruct m; cbn [ebind] in H; [discriminate |]
         end.
  injection H as <-. reflexivity.
Qed.

(** C5, as the code has it.  With the source [auto], the source of the
    result is [parsed[2]] whenever that subscript succeeds with anything
    but the string [auto], whatever the type of the value; [parsed[0][2]]
    is attempted only when [parsed[2]] raised or gave the string [auto],
    and its value is then taken; when that raises too the source stays the
    string [auto]. *)
Theorem detected_source_is_first_subscript_that_succeeds
  (parsed : json) (dest origin : string) (response : Response) (tr : Translated) :
  decode parsed "auto" dest origin response = inr tr ->
  (forall v, PyObj.getitem parsed 2 = inr v -> PyObj.eq_str v "auto" = false ->
             tr_src tr = v)
  /\ (forall w,
         (exists e, PyObj.getitem parsed 2 = inl e)
         \/ PyObj.getitem parsed 2 = inr (JStr "auto") ->
         getpath parsed [0; 2] = inr w ->
         tr_src tr = w)
  /\ ((exists e, PyObj.getitem parsed 2 = inl e)
      \/ PyObj.getitem parsed 2 = inr (JStr "auto") ->
      (exists e, getpath parsed [0; 2] = inl e) ->
      tr_src tr = JStr "auto").
Proof.
  intros H. rewrite (decode_src _ _ _ _ _ _ H). unfold resolve_detected_src.
  change (PyObj.eq_str (JStr "auto") "auto") with true. cbv iota.
  repeat split.
  - intros v Hv Hne. rewrite Hv, Hne. reflexivity.
  - intros w [[e He] | Ha] Hw; rewrite ?He, ?Ha;
      change (PyObj.eq_str (JStr "auto") "auto") with true; cbv iota;
      rewrite Hw; reflexivity.
  - intros [[e He] | Ha] [e' He']; rewrite ?He, ?Ha;
      change (PyObj.eq_str (JStr "auto") "auto") with true; cbv iota;
      rewrite He'; reflexivity.
Qed.

Lemma detected_source_is_first_subscript_that_succeeds_witness :
  let parsed :=
    JList [JList [JNull; JNull; JStr "fr"];
           JList [JList [JList [JNull; JNull; JNull; JBool true; JNull;
                                JList [JList [JStr "Hi"]]]]]] in
  exists tr, decode parsed "auto" "en" "Salut" {| status := 200; body := "" |} = inr tr
             /\ tr_src tr = JStr "fr".
Proof.
  intros parsed. eexists. split; [reflexivity |].
  apply (proj1 (proj2 (detected_source_is_first_subscript_that_succeeds
                         parsed "en" "Salut" {| status := 200; body := "" |} _ eq_refl))).
  - left. exists IndexError. reflexivity.
  - reflexivity.
Defined.

(** C5, as the claim states it, fails twice.  When [parsed[2]] is there
    with the wrong type (here [null]) and [parsed[0][2]] holds the code,
    the source of the result is that [null]: the second subscript is not
    attempted.  When both subscripts raise, the source of the result is
    the string [auto], not [unknown]. *)
Lemma detected_source_is_not_type_checked :
  let reply := JList [JList [JList [JNull; JNull; JNull; JBool true; JNull;
                                    JList [JList [JStr "Hi"]]]]] in
  let wrong_type := JList [JList [JNull; JNull; JStr "fr"]; reply; JNull] in
  let both_missing := JList [JList []; reply] in
  let response := {| status := 200; body := "" |} in
  getpath wrong_type [0; 2] = inr (JStr "fr")
  /\ match decode wrong_type "auto" "en" "Salut" response with
     | inr tr => tr_src tr = JNull
     | inl _ => False
     end
  /\ match decode both_missing "auto" "en" "Salut" response with
     | inr tr => tr_src tr = JStr "auto" /\ tr_src tr <> JStr "unknown"
     | inl _ => False
     end.
Proof. cbv zeta. split; [reflexivity |]. split; [reflexivity |]. split; [reflexivity | discriminate]. Qed.

(** ** The transport, and [translate] as a whole *)

Module ClientFacts.
Import PyStr PyStrFacts FrameFacts.

Lemma concat_empty_cons (x : string) (l : list string) :
  String.concat "" (x :: l) = x +:+ String.concat "" l.
Proof. destruct l; simpl; [now rewrite append_nil_r | reflexivity]. Qed.

(** With no marker on any line, the loop ends as it started. *)
Lemma frame_no_marker (data : string) :
  Forall (fun line => contains (quoted RPC_ID) (take 30 line) = false)
    (split newline data) ->
  frame data = "".
Proof.
  intros H. unfold frame.
  rewrite <- (List.app_nil_r (split newline data)).
  rewrite frame_loop_skip_all by (reflexivity || exact H). reflexivity.
Qed.

(** A loop that ends with the counts apart has read every line. *)
Lemma frame_loop_unbalanced (lines : list string) (st final : FrameState)
  (unread : list string) :
  token_found st = true ->
  frame_loop lines st = (final, unread) ->
  fst (square_bracket_counts final) <> snd (square_bracket_counts final) ->
  unread = [] /\ resp final = resp st +:+ String.concat "" lines.
Proof.
  revert st. induction lines as [|line rest IH]; intros st Hfound Hloop Hne.
  - simpl in Hloop. injection Hloop as <- <-. now rewrite PyStrFacts.append_nil_r.
  - rewrite frame_loop_found in Hloop by exact Hfound. cbv zeta in Hloop.
    destruct (Nat.eqb_spec (fst (snd (scan_line line (square_bracket_counts st))))
                (snd (snd (scan_line line (square_bracket_counts st))))) as [Heq | _].
    + injection Hloop as <- <-. simpl in Hne. contradiction.
    + apply IH in Hloop; [| reflexivity | exact Hne].
      destruct Hloop as [-> Hresp]. split; [reflexivity |].
      rewrite Hresp. cbn [resp]. rewrite concat_empty_cons.
      now rewrite PyStrFacts.append_assoc.
Qed.

Lemma frame_unbalanced (data : string) (pre post : list string) (m : string) :
  split newline data = pre ++ m :: post ->
  Forall (fun line => contains (quoted RPC_ID) (take 30 line) = false) pre ->
  contains (quoted RPC_ID) (take 30 m) = true ->
  (let final := fst (frame_loop (split newline data) frame_init) in
   fst (square_bracket_counts final) <> snd (square_bracket_counts final)) ->
  snd (frame_loop (split newline data) frame_init) = []
  /\ frame data = String.concat "" (m :: post).
Proof.
  intros Hsplit Hpre Hm. unfold frame. rewrite Hsplit.
  rewrite frame_loop_skip_all by (reflexivity || exact Hpre).
  rewrite frame_loop_marker by exact Hm. cbv zeta.
  cbn [square_bracket_counts frame_init resp].
  destruct (Nat.eqb_spec (fst (snd (scan_line m (0, 0)))) (snd (snd (scan_line m (0, 0)))))
    as [Heq | Hne].
  - cbn [fst snd square_bracket_counts]. intros Hne. contradiction.
  - intros Hfinal.
    destruct (frame_loop post _) as [final unread] eqn:Hloop.
    apply frame_loop_unbalanced in Hloop; [| reflexivity | exact Hfinal].
    destruct Hloop as [-> Hresp]. split; [reflexivity |].
    cbn [fst]. rewrite Hresp. cbn [resp]. now rewrite concat_empty_cons.
Qed.

End ClientFacts.

Section ClientClaims.
Import PyStr PyStrFacts ResolveFacts ClientFacts.

Variables LANGUAGES SPECIAL_CASES LANGCODES : gmap string string.
Variable json_loads : string -> option json.

Local Abbreviation src_of := (resolve_src LANGUAGES SPECIAL_CASES LANGCODES).
Local Abbreviation dest_of := (resolve_dest LANGUAGES SPECIAL_CASES LANGCODES).
Local Abbreviation run := (translate LANGUAGES SPECIAL_CASES LANGCODES json_loads).

(** [translate] once both tags are resolved. *)
Lemma translate_resolved (self : AiohttpTranslator) (text dest src : string) (r : nat)
  (log : list PostCall) (s d : string) :
  src_of (normalize src) = inr s ->
  dest_of (normalize dest) = inr d ->
  run self text dest src r log
  = match _translate self text d s r log with
    | (inl e, log') => (inl e, log')
    | (inr (data, response), log') =>
        (let? parsed := parse_response json_loads (frame data) in
         decode parsed s d text response, log')
    end.
Proof.
  intros Hs Hd. unfold translate, bind, lift. rewrite Hs, Hd.
  destruct (_translate self text d s r log) as [[e | [data response]] log'];
    [reflexivity |].
  destruct (parse_response json_loads (frame data)); reflexivity.
Qed.

(** C7.  When the destination tag, lower-cased and cut at its first
    underscore, is in none of the three tables, [translate] raises a
    [ValueError] and the list of posts is what it was: the session's
    [post] is not called.  The error is the one of the destination
    unless the source tag was refused first. *)
Theorem invalid_destination_fails_before_any_post
  (self : AiohttpTranslator) (text dest src : string) (r : nat) (log : list PostCall) :
  LANGUAGES !! normalize dest = None ->
  SPECIAL_CASES !! normalize dest = None ->
  LANGCODES !! normalize dest = None ->
  (exists msg, run self text dest src r log = (inl (ValueError msg), log))
  /\ (forall s, src_of (normalize src) = inr s ->
                run self text dest src r log
                = (inl (ValueError ("Invalid Destination Language: " +:+ normalize dest)),
                   log)).
Proof.
  intros H1 H2 H3.
  pose proof (resolve_dest_unknown LANGUAGES SPECIAL_CASES LANGCODES _ H1 H2 H3) as Hd.
  assert (Hrun : forall s, src_of (normalize src) = inr s ->
                           run self text dest src r log
                           = (inl (ValueError ("Invalid Destination Language: "
                                               +:+ normalize dest)), log)).
  { intros s Hs. unfold translate, bind, lift. rewrite Hs, Hd. reflexivity. }
  split; [| exact Hrun].
  destruct (src_of (normalize src)) as [e | s] eqn:Hs.
  - apply resolve_src_raises in Hs as Hmsg. subst e.
    eexists. unfold translate, bind, lift. rewrite Hs. reflexivity.
  - eexists. apply (Hrun s). reflexivity.
Qed.

(** C9, as the code has it.  When the status of the response is not 200
    and [raise_exception] is set, [_translate] raises at once, after its
    one post, the exception made of the status code and of
    [self.service_urls], the whole list of the client's hosts; and so
    does [translate], which frames and decodes nothing. *)
Theorem unexpected_status_raises_with_service_urls
  (self : AiohttpTranslator) (text dest src : string) (r : nat) (log : list PostCall)
  (host : string) (response : Response) :
  _pick_service_url self r = inr host ->
  session self (rpc_call host text dest src) = inr response ->
  status response <> 200%Z ->
  raise_exception self = true ->
  _translate self text dest src r log
  = (inl (StatusException (status response) (service_urls self)),
     log ++ [rpc_call host text dest src])
  /\ (forall dest' src',
         src_of (normalize src') = inr src ->
         dest_of (normalize dest') = inr dest ->
         run self text dest' src' r log
         = (inl (StatusException (status response) (service_urls self)),
            log ++ [rpc_call host text dest src])).
Proof.
  intros Hpick Hpost Hstatus Hraise.
  assert (H : _translate self text dest src r log
              = (inl (StatusException (status response) (service_urls self)),
                 log ++ [rpc_call host text dest src])).
  { unfold _translate, bind, lift, post. rewrite Hpick, Hpost, Hraise.
    apply Z.eqb_neq in Hstatus. rewrite Hstatus. reflexivity. }
  split; [exact H |].
  intros dest' src' Hs Hd.
  rewrite (translate_resolved _ _ _ _ _ _ _ _ Hs Hd), H. reflexivity.
Qed.

(** C3, as the code has it.  The code has no error of its own for the
    framing.  When no line holds the quoted marker in its first 30
    characters the framed text is empty and the call fails with the
    error [json.loads] raises on the empty text.  When the loop reaches
    the end of the input with the counts apart, nothing is checked: the
    framed text is every line from the marker line on, and the call
    fails or returns as parsing and decoding that text do. *)
Theorem framing_is_not_checked_before_parsing
  (self : AiohttpTranslator) (text dest src : string) (r : nat) (log log' : list PostCall)
  (s d data : string) (response : Response) :
  json_loads "" = None ->
  src_of (normalize src) = inr s ->
  dest_of (normalize dest) = inr d ->
  _translate self text d s r log = (inr (data, response), log') ->
  (Forall (fun line => contains (quoted RPC_ID) (take 30 line) = false)
     (split newline data) ->
   frame data = ""
   /\ run self text dest src r log = (inl JSONDecodeError, log'))
  /\ (forall (pre post : list string) (m : string),
         split newline data = pre ++ m :: post ->
         Forall (fun line => contains (quoted RPC_ID) (take 30 line) = false) pre ->
         contains (quoted RPC_ID) (take 30 m) = true ->
         (let final := fst (frame_loop (split newline data) frame_init) in
          fst (square_bracket_counts final) <> snd (square_bracket_counts final)) ->
         snd (frame_loop (split newline data) frame_init) = []
         /\ frame data = String.concat "" (m :: post)
         /\ run self text dest src r log
            = (let? parsed := parse_response json_loads (String.concat "" (m :: post)) in
               decode parsed s d text response, log')).
Proof.
  intros Hempty Hs Hd Htr.
  pose proof (translate_resolved self text dest src r log s d Hs Hd) as Hrun.
  rewrite Htr in Hrun. split.
  - intros Hnone. pose proof (frame_no_marker data Hnone) as Hframe.
    split; [exact Hframe |].
    rewrite Hrun, Hframe. unfold parse_response. rewrite Hempty. reflexivity.
  - intros pre post m Hsplit Hpre Hm Hne.
    destruct (frame_unbalanced data pre post m Hsplit Hpre Hm Hne) as [Hunread Hframe].
    split; [exact Hunread |]. split; [exact Hframe |].
    rewrite Hrun, Hframe. reflexivity.
Qed.

End ClientClaims.

Lemma invalid_destination_fails_before_any_post_witness :
  let self := Sample.client ["translate.google.com"] true
                {| status := 200; body := Sample.reply_body |} in
  translate Sample.LANGUAGES Sample.SPECIAL_CASES Sample.LANGCODES Json.loads
    self "Bonjour" "ZZ_top" "auto" 0 []
  = (inl (ValueError "Invalid Destination Language: zz"), []).
Proof.
  intros self.
  apply (proj2 (invalid_destination_fails_before_any_post
                  Sample.LANGUAGES Sample.SPECIAL_CASES Sample.LANGCODES Json.loads
                  self "Bonjour" "ZZ_top" "auto" 0 [] eq_refl eq_refl eq_refl) "auto").
  reflexivity.
Defined.

Lemma unexpected_status_raises_with_service_urls_witness :
  let self := Sample.client ["translate.google.com"; "translate.google.co.kr"] true
                {| status := 503; body := "Service Unavailable" |} in
  _translate self "Bonjour" "en" "auto" 3 []
  = (inl (StatusException 503 ["translate.google.com"; "translate.google.co.kr"]),
     [rpc_call "translate.google.co.kr" "Bonjour" "en" "auto"]).
Proof.
  intros self.
  apply (proj1 (unexpected_status_raises_with_service_urls
                  Sample.LANGUAGES Sample.SPECIAL_CASES Sample.LANGCODES Json.loads
                  self "Bonjour" "en" "auto" 3 [] "translate.google.co.kr"
                  {| status := 503; body := "Service Unavailable" |}
                  eq_refl eq_refl ltac:(discriminate) eq_refl)).
Defined.

(** C9, as the claim states it, fails: on a client with two hosts the
    draw decides which host is posted to, and the exception raised on
    status 500 is the same for both, the list of the two hosts; it does
    not tell which host was attempted. *)
Lemma status_exception_does_not_name_the_host_attempted :
  let self := Sample.client ["translate.google.com"; "translate.google.co.kr"] true
                {| status := 500; body := "" |} in
  map post_url (snd (_translate self "Bonjour" "en" "auto" 0 []))
  = [TRANSLATE_RPC "translate.google.com"]
  /\ map post_url (snd (_translate self "Bonjour" "en" "auto" 1 []))
     = [TRANSLATE_RPC "translate.google.co.kr"]
  /\ fst (_translate self "Bonjour" "en" "auto" 0 [])
     = inl (StatusException 500 ["translate.google.com"; "translate.google.co.kr"])
  /\ fst (_translate self "Bonjour" "en" "auto" 1 [])
     = fst (_translate self "Bonjour" "en" "auto" 0 []).
Proof.
  cbv zeta. split; [vm_compute; reflexivity |]. split; [vm_compute; reflexivity |].
  split; vm_compute; reflexivity.
Qed.

Lemma framing_is_not_checked_before_parsing_witness :
  let answer := {| status := 200; body := PyStr.lit "<html>|<body>Sorry...</body>|</html>" |} in
  let self := Sample.client ["translate.google.com"] true answer in
  frame (body answer) = ""
  /\ translate Sample.LANGUAGES Sample.SPECIAL_CASES Sample.LANGCODES Json.loads
       self "Bonjour" "en" "auto" 0 []
     = (inl JSONDecodeError, [rpc_call "translate.google.com" "Bonjour" "en" "auto"]).
Proof.
  intros answer self.
  apply (proj1 (framing_is_not_checked_before_parsing
                  Sample.LANGUAGES Sample.SPECIAL_CASES Sample.LANGCODES Json.loads
                  self "Bonjour" "en" "auto" 0 []
                  [rpc_call "translate.google.com" "Bonjour" "en" "auto"]
                  "auto" "en" (body answer) answer
                  eq_refl eq_refl eq_refl eq_refl)).
  vm_compute. repeat constructor.
Defined.

(** C3, as the claim states it, fails: on this one-line reply the scanner
    takes the quote after an escaped backslash for an escaped quote, ends
    the line inside a string with two brackets open and none closed, and
    the input ends there; the line is valid JSON all the same, and the
    call returns the translation. *)
Lemma unbalanced_reply_is_parsed_and_returned :
  let answer := {| status := 200; body := Sample.unbalanced_body |} in
  let self := Sample.client ["translate.google.com"] true answer in
  let loop := frame_loop (PyStr.split PyStr.newline Sample.unbalanced_body) frame_init in
  square_bracket_counts (fst loop) = (2, 0)
  /\ snd loop = []
  /\ match fst (translate Sample.LANGUAGES Sample.SPECIAL_CASES Sample.LANGCODES Json.loads
                  self "Salut" "en" "auto" 0 []) with
     | inr tr => tr_text tr = "Hi" /\ tr_src tr = JStr "fr"
     | inl _ => False
     end.
Proof.
  cbv zeta. split; [vm_compute; reflexivity |]. split; [vm_compute; reflexivity |].
  vm_compute. split; reflexivity.
Qed.

Example loads_ex :
  Json.loads ("[[1, -20, 1.5e3, true, null, {" +:+ PyStr.quoted "k" +:+ ": [] }], "
              +:+ PyStr.quoted ("a" +:+ String PyStr.backslash "u0041") +:+ "]")
  = Some (JList [JList [JInt 1; JInt (-20); JFloat "1.5e3"; JBool true; JNull;
                        JDict [("k", JList [])]]; JStr "aA"]).
Proof. vm_compute. reflexivity. Qed.

Example rpc_request_ex :
  _build_rpc_request "Hello" "en" "auto"
  = PyStr.lit ("[[['MkEWBc','[[" +:+ Sample.embedded "'Hello','auto','en'"
               +:+ ",true],[null]]',null,'generic']]]").
Proof. vm_compute. reflexivity. Qed.


(** * Further properties of the client *)

(** ** The framing loop *)

Module FrameMore.
Import PyStr PyStrFacts ScanFacts FrameFacts.

Lemma concat_nil_cons (x : string) (l : list string) :
  String.concat "" (x :: l) = x +:+ String.concat "" l.
Proof. destruct l; simpl; [now rewrite append_nil_r | reflexivity]. Qed.

(** From a state past the marker, the loop reads a region that balances
    at its end and no further. *)
Lemma frame_loop_region (region post : list string) (st : FrameState) :
  token_found st = true ->
  balances_at_end region (square_bracket_counts st) = true ->
  frame_loop (region ++ post) st
  = ({| token_found := true;
        square_bracket_counts := scan_lines region (square_bracket_counts st);
        resp := resp st +:+ String.concat "" region |}, post).
Proof.
  revert st. induction region as [|line rest IH]; intros st Hfound Hbal.
  - discriminate.
  - rewrite <- app_comm_cons, frame_loop_found by exact Hfound. cbv zeta.
    cbn [balances_at_end] in Hbal. cbn [scan_lines].
    destruct rest as [|line2 rest].
    + rewrite Hbal. cbn [scan_lines String.concat app]. reflexivity.
    + apply andb_true_iff in Hbal as [Hne Hbal].
      apply negb_true_iff in Hne. rewrite Hne.
      rewrite IH by (reflexivity || exact Hbal).
      cbn [square_bracket_counts resp].
      rewrite (concat_nil_cons line (line2 :: rest)), append_assoc. reflexivity.
Qed.

Lemma split_lines_no_newline (s : string) :
  Forall (fun line => count newline line = 0) (split newline s).
Proof.
  induction s as [|c s IH]; cbn [split].
  - repeat constructor.
  - destruct (Ascii.eqb c newline) eqn:Hc.
    + constructor; [reflexivity | exact IH].
    + destruct (split newline s) as [|h t].
      * repeat constructor. cbn [count]. now rewrite Hc.
      * inversion IH as [|? ? Hh Ht]; subst. constructor; [| exact Ht].
        cbn [count]. now rewrite Hc.
Qed.

Lemma frame_loop_no_newline (lines : list string) (st : FrameState) :
  Forall (fun line => count newline line = 0) lines ->
  count newline (resp st) = 0 ->
  count newline (resp (fst (frame_loop lines st))) = 0.
Proof.
  intros Hlines. revert st.
  induction Hlines as [|line rest Hline _ IH]; intros st Hst; [exact Hst |].
  cbn [frame_loop].
  destruct (negb (token_found st || contains (quoted RPC_ID) (take 30 line))).
  - apply IH. exact Hst.
  - cbv zeta.
    destruct (fst (snd (scan_line line (square_bracket_counts st)))
              =? snd (snd (scan_line line (square_bracket_counts st))))%nat.
    + cbn [fst resp]. rewrite count_app. lia.
    + apply IH. cbn [resp]. rewrite count_app. lia.
Qed.

Lemma scan_prev_bounds (s : string) (escaped f : bool) (n_open n_close : nat) :
  let counts' := snd (scan_prev escaped s (f, (n_open, n_close))) in
  n_open <= fst counts' <= n_open + count lbracket s
  /\ n_close <= snd counts' <= n_close + count rbracket s.
Proof.
  revert escaped f n_open n_close.
  induction s as [|x s IH]; intros escaped f o c; cbv zeta.
  - simpl. lia.
  - cbn [scan_prev count]. unfold scan_step.
    destruct (Ascii.eqb x dquote && negb escaped); destruct f; cbn [negb];
      destruct (Ascii.eqb x lbracket) eqn:Hl; destruct (Ascii.eqb x rbracket) eqn:Hr;
      match goal with
      | |- context [scan_prev ?e s (?g, (?a, ?b))] =>
          pose proof (IH e g a b) as Hb; cbv zeta in Hb
      end; lia.
Qed.

(** The marker (eight characters) in a window of [w] characters, after a
    text that holds no quote. *)
Lemma marker_in_window (pad rest : string) (w : nat) :
  count dquote pad = 0 ->
  contains (quoted RPC_ID) (take w (pad +:+ quoted RPC_ID +:+ rest))
  = (String.length pad + 8 <=? w)%nat.
Proof.
  revert w. induction pad as [|c pad IH]; intros w Hq.
  - do 8 (destruct w as [|w]; [reflexivity |]). reflexivity.
  - cbn [count] in Hq. destruct (Ascii.eqb c dquote) eqn:Hc; [discriminate |].
    destruct w as [|w]; [reflexivity |].
    cbn [String.append take contains String.length Nat.add].
    change (startswith (quoted RPC_ID) (String c (take w (pad +:+ quoted RPC_ID +:+ rest))))
      with (Ascii.eqb dquote c
            && startswith ("MkEWBc" +:+ String dquote "")
                 (take w (pad +:+ quoted RPC_ID +:+ rest))).
    rewrite Ascii.eqb_sym, Hc. cbn [andb orb].
    rewrite IH by exact Hq. reflexivity.
Qed.

End FrameMore.

(** X1.  The framed text is the region from the marker line to the first
    line after which the two counts are equal: the lines before the marker
    line are dropped, the lines of the region are joined with nothing
    between them, and whatever follows the region is left unread. *)
Theorem frame_returns_first_balanced_region
  (data : string) (pre region post : list string) :
  PyStr.split PyStr.newline data = pre ++ region ++ post ->
  Forall (fun line => PyStr.contains (PyStr.quoted RPC_ID) (PyStr.take 30 line) = false) pre ->
  (exists m rest, region = m :: rest
                  /\ PyStr.contains (PyStr.quoted RPC_ID) (PyStr.take 30 m) = true) ->
  balances_at_end region (0, 0) = true ->
  frame_loop (PyStr.split PyStr.newline data) frame_init
  = ({| token_found := true;
        square_bracket_counts := scan_lines region (0, 0);
        resp := String.concat "" region |}, post)
  /\ frame data = String.concat "" region.
Proof.
  intros Hsplit Hpre (m & rest & -> & Hm) Hbal.
  assert (Hloop : frame_loop (PyStr.split PyStr.newline data) frame_init
                  = ({| token_found := true;
                        square_bracket_counts := scan_lines (m :: rest) (0, 0);
                        resp := String.concat "" (m :: rest) |}, post)).
  { rewrite Hsplit, FrameFacts.frame_loop_skip_all by (reflexivity || exact Hpre).
    rewrite <- app_comm_cons, FrameFacts.frame_loop_marker by exact Hm. cbv zeta.
    cbn [balances_at_end] in Hbal. cbn [scan_lines square_bracket_counts frame_init resp].
    rewrite FrameMore.concat_nil_cons.
    destruct rest as [|line2 rest].
    - rewrite Hbal. cbn [String.concat scan_lines].
      rewrite PyStrFacts.append_nil_r. reflexivity.
    - apply andb_true_iff in Hbal as [Hne Hbal]. apply negb_true_iff in Hne.
      rewrite Hne.
      rewrite FrameMore.frame_loop_region by (reflexivity || exact Hbal).
      reflexivity. }
  split; [exact Hloop |]. unfold frame. rewrite Hloop. reflexivity.
Qed.

Lemma frame_returns_first_balanced_region_witness :
  frame (PyStr.lit ")]}'||27|[['wrb.fr','MkEWBc',|'[1]',null]|]|25|[['e',4]]")
  = PyStr.lit "[['wrb.fr','MkEWBc','[1]',null]]".
Proof.
  apply (frame_returns_first_balanced_region
           (PyStr.lit ")]}'||27|[['wrb.fr','MkEWBc',|'[1]',null]|]|25|[['e',4]]")
           [PyStr.lit ")]}'"; ""; "27"]
           [PyStr.lit "[['wrb.fr','MkEWBc',"; PyStr.lit "'[1]',null]"; "]"]
           ["25"; PyStr.lit "[['e',4]]"]).
  - reflexivity.
  - repeat constructor.
  - eexists _, _. split; reflexivity.
  - reflexivity.
Defined.

(** X2.  The framed text never holds a line break: the lines of the body
    are joined with nothing between them. *)
Theorem framed_text_has_no_line_break (data : string) :
  PyStr.count PyStr.newline (frame data) = 0.
Proof.
  unfold frame. apply FrameMore.frame_loop_no_newline.
  - apply FrameMore.split_lines_no_newline.
  - reflexivity.
Qed.

(** X3.  The marker is sought in the first 30 characters of a line only:
    after a text without a quote it is found exactly when that text is at
    most 22 characters long, and a line on which it comes later is skipped
    like any line before the marker. *)
Theorem marker_is_sought_in_first_thirty_characters
  (pad rest : string) (lines : list string) :
  PyStr.count PyStr.dquote pad = 0 ->
  PyStr.contains (PyStr.quoted RPC_ID)
    (PyStr.take 30 (pad +:+ PyStr.quoted RPC_ID +:+ rest))
  = (String.length pad <=? 22)%nat
  /\ (22 < String.length pad ->
      frame_loop ((pad +:+ PyStr.quoted RPC_ID +:+ rest) :: lines) frame_init
      = frame_loop lines frame_init).
Proof.
  intros Hq.
  pose proof (FrameMore.marker_in_window pad rest 30 Hq) as Hw.
  assert (Heq : (String.length pad + 8 <=? 30)%nat = (String.length pad <=? 22)%nat).
  { destruct (Nat.leb_spec (String.length pad + 8) 30);
      destruct (Nat.leb_spec (String.length pad) 22); (reflexivity || lia). }
  rewrite Heq in Hw. split; [exact Hw |].
  intros Hlong. apply FrameFacts.frame_loop_skip; [reflexivity |].
  rewrite Hw. apply Nat.leb_gt. exact Hlong.
Qed.

Lemma marker_is_sought_in_first_thirty_characters_witness :
  frame_loop [PyStr.lit "[[1234567890,1234567890,'MkEWBc','[]']]"; "[]"] frame_init
  = frame_loop ["[]"] frame_init.
Proof.
  apply (proj2 (marker_is_sought_in_first_thirty_characters
                  "[[1234567890,1234567890," (PyStr.lit ",'[]']]") ["[]"] eq_refl)).
  vm_compute. lia.
Defined.

(** X4.  Scanning a line never lowers a count, and raises each by no more
    than the line holds of that bracket. *)
Theorem scan_line_counts_are_bounded (line : string) (n_open n_close : nat) :
  let counts' := snd (scan_line line (n_open, n_close)) in
  n_open <= fst counts' <= n_open + PyStr.count PyStr.lbracket line
  /\ n_close <= snd counts' <= n_close + PyStr.count PyStr.rbracket line.
Proof.
  rewrite ScanFacts.scan_line_prev. apply FrameMore.scan_prev_bounds.
Qed.


(** ** The decoder *)

Module DecodeMore.

Lemma make_raw_parts (pairs : list (json * list json)) :
  exists parts, map_raising make_part (map raw_entry pairs) = inr parts
                /\ map part_text parts = map fst pairs.
Proof.
  induction pairs as [|[t more] pairs (parts & Hparts & Htexts)].
  - exists []. split; reflexivity.
  - cbn [map map_raising]. rewrite Hparts.
    destruct more as [|second more]; cbn; eexists; (split; [reflexivity |]);
      cbn [map part_text]; now rewrite Htexts.
Qed.

Lemma as_str_raises (values : list json) :
  Exists (fun v => is_str v = false) values ->
  map_raising as_str values = inl TypeError.
Proof.
  induction 1 as [v values Hv | v values _ IH].
  - destruct v; try discriminate Hv; reflexivity.
  - cbn [map_raising]. destruct v; cbn; try reflexivity. now rewrite IH.
Qed.

End DecodeMore.

(** X5.  A source language the caller named is never replaced: whatever
    the payload holds at [parsed[2]] and [parsed[0][2]], the source of the
    result is the code the call was made with. *)
Theorem named_source_is_kept
  (parsed : json) (src dest origin : string) (response : Response) (tr : Translated) :
  decode parsed src dest origin response = inr tr ->
  src <> "auto" ->
  tr_src tr = JStr src.
Proof.
  intros H Hne. rewrite (decode_src _ _ _ _ _ _ H). unfold resolve_detected_src.
  apply String.eqb_neq in Hne.
  change (PyObj.eq_str (JStr src) "auto") with (String.eqb src "auto").
  rewrite Hne. cbv iota.
  change (PyObj.eq_str (JStr src) "auto") with (String.eqb src "auto").
  rewrite Hne. reflexivity.
Qed.

Lemma named_source_is_kept_witness :
  let parsed :=
    JList [JList [JNull; JNull; JStr "de"];
           JList [JList [JList [JNull; JNull; JNull; JBool true; JNull;
                                JList [JList [JStr "Hi"]]]]];
           JStr "de"] in
  exists tr, decode parsed "fr" "en" "Salut" {| status := 200; body := "" |} = inr tr
             /\ tr_src tr = JStr "fr".
Proof.
  intros parsed. eexists. split; [reflexivity |].
  apply (named_source_is_kept parsed "fr" "en" "Salut" {| status := 200; body := "" |}
           _ eq_refl).
  discriminate.
Defined.

(** X6.  When the row [parsed[1][0][0]] is a list of fewer than six
    elements, decoding raises [IndexError]: no result is built from a row
    that lacks the spacing flag or the parts. *)
Theorem short_row_raises_index_error
  (first : json) (row : list json) (rows groups rest : list json)
  (src dest origin : string) (response : Response) :
  length row < 6 ->
  decode (JList (first :: JList (JList (JList row :: rows) :: groups) :: rest))
    src dest origin response
  = inl IndexError.
Proof.
  intros Hlen. unfold decode. cbn [getpath PyObj.getitem lookup list_lookup ebind].
  destruct (row !! 3) as [flag|] eqn:H3; cbn [ebind]; [| reflexivity].
  rewrite (proj2 (lookup_ge_None row 5)) by lia. reflexivity.
Qed.

Lemma short_row_raises_index_error_witness :
  decode (JList [JNull; JList [JList [JList [JNull; JStr "pron"; JNull; JBool true; JNull]]]])
    "auto" "en" "Salut" {| status := 200; body := "" |}
  = inl IndexError.
Proof.
  apply (short_row_raises_index_error JNull
           [JNull; JStr "pron"; JNull; JBool true; JNull] [] [] []).
  vm_compute. lia.
Defined.

(** X7.  When the entries of [parsed[1][0][0][5]] are lists and the first
    element of one of them is not a string, decoding raises [TypeError]
    (from [str.join]): no text is built from the other parts. *)
Theorem non_string_text_raises_type_error
  (parsed flag : json) (pairs : list (json * list json))
  (src dest origin : string) (response : Response) :
  getpath parsed [1; 0; 0; 3] = inr flag ->
  getpath parsed [1; 0; 0; 5] = inr (JList (map raw_entry pairs)) ->
  Exists (fun p => is_str (fst p) = false) pairs ->
  decode parsed src dest origin response = inl TypeError.
Proof.
  intros H3 H5 Hbad. unfold decode. rewrite H3, H5. cbn [ebind PyObj.iter].
  destruct (DecodeMore.make_raw_parts pairs) as (parts & Hparts & Htexts).
  rewrite Hparts. cbn [ebind]. rewrite Htexts.
  rewrite DecodeMore.as_str_raises; [reflexivity |].
  clear -Hbad. induction Hbad as [p pairs Hp | p pairs _ IH]; cbn [map].
  - apply Exists_cons_hd. exact Hp.
  - apply Exists_cons_tl. exact IH.
Qed.

Lemma non_string_text_raises_type_error_witness :
  decode (JList [JNull;
                 JList [JList [JList [JNull; JNull; JNull; JBool true; JNull;
                                      JList [JList [JStr "Hello"]; JList [JNull]]]]]])
    "auto" "en" "Salut" {| status := 200; body := "" |}
  = inl TypeError.
Proof.
  apply (non_string_text_raises_type_error _ (JBool true)
           [(JStr "Hello", []); (JNull, [])]).
  - reflexivity.
  - reflexivity.
  - apply Exists_cons_tl. apply Exists_cons_hd. reflexivity.
Defined.


(** ** The transport *)

Module TransportMore.

Lemma pick_in_list (self : AiohttpTranslator) (r : nat) (host : string) :
  _pick_service_url self r = inr host -> In host (service_urls self).
Proof.
  unfold _pick_service_url, random_choice.
  destruct (length (service_urls self) =? 1)%nat.
  - destruct (service_urls self !! 0) as [x|] eqn:Hx; [| discriminate].
    intros [= <-]. apply list_elem_of_In. eapply list_elem_of_lookup_2. exact Hx.
  - destruct (service_urls self !! (r mod length (service_urls self))) as [x|] eqn:Hx;
      [| discriminate].
    intros [= <-]. apply list_elem_of_In. eapply list_elem_of_lookup_2. exact Hx.
Qed.

Lemma pick_nonempty (self : AiohttpTranslator) (r : nat) :
  service_urls self <> [] -> exists host, _pick_service_url self r = inr host.
Proof.
  intros Hne. unfold _pick_service_url, random_choice.
  destruct (length (service_urls self) =? 1)%nat eqn:H1.
  - destruct (service_urls self) as [|x l]; [contradiction |]. eexists. reflexivity.
  - assert (Hlt : r mod length (service_urls self) < length (service_urls self)).
    { apply Nat.mod_upper_bound. destruct (service_urls self); [contradiction | discriminate]. }
    apply lookup_lt_is_Some_2 in Hlt as [x Hx]. rewrite Hx. eexists. reflexivity.
Qed.

(** Whatever the response, [_translate] leaves one more post in the log. *)
Lemma _translate_log (self : AiohttpTranslator) (text dest src : string) (r : nat)
  (log : list PostCall) (host : string) :
  _pick_service_url self r = inr host ->
  snd (_translate self text dest src r log) = log ++ [rpc_call host text dest src].
Proof.
  intros Hpick. unfold _translate, bind, lift, post, raise, ret. rewrite Hpick.
  destruct (session self (rpc_call host text dest src)) as [e | response]; [reflexivity |].
  destruct (negb (status response =? 200)%Z && raise_exception self); reflexivity.
Qed.

End TransportMore.

(** X12.  A client with no service host raises [IndexError] without
    posting; otherwise the host posted to is one of [self.service_urls],
    the only one when there is only one, and the call leaves exactly one
    post in the log, whatever the response. *)
Theorem host_posted_to_is_a_service_url
  (self : AiohttpTranslator) (text dest src : string) (r : nat) (log : list PostCall) :
  match service_urls self with
  | [] => _translate self text dest src r log = (inl IndexError, log)
  | first :: others =>
      exists host,
        _pick_service_url self r = inr host
        /\ In host (service_urls self)
        /\ (others = [] -> host = first)
        /\ snd (_translate self text dest src r log)
           = log ++ [rpc_call host text dest src]
  end.
Proof.
  destruct (service_urls self) as [|first others] eqn:Hurls.
  - unfold _translate, bind, lift, _pick_service_url, random_choice.
    rewrite Hurls. reflexivity.
  - destruct (TransportMore.pick_nonempty self r) as [host Hhost];
      [rewrite Hurls; discriminate |].
    exists host. split; [exact Hhost |]. split.
    + rewrite <- Hurls. now apply (TransportMore.pick_in_list self r).
    + split; [| now apply TransportMore._translate_log].
      intros ->. unfold _pick_service_url in Hhost. rewrite Hurls in Hhost.
      cbn in Hhost. congruence.
Qed.

(** X13.  With [raise_exception] off, the status is not looked at: a
    response of any status is returned with its text, as one of status 200
    is. *)
Theorem status_is_ignored_unless_raising
  (self : AiohttpTranslator) (text dest src : string) (r : nat) (log : list PostCall)
  (host : string) (response : Response) :
  _pick_service_url self r = inr host ->
  session self (rpc_call host text dest src) = inr response ->
  raise_exception self = false \/ status response = 200%Z ->
  _translate self text dest src r log
  = (inr (body response, response), log ++ [rpc_call host text dest src]).
Proof.
  intros Hpick Hpost Hok. unfold _translate, bind, lift, post, ret. rewrite Hpick, Hpost.
  destruct Hok as [-> | ->]; [rewrite andb_false_r | ]; reflexivity.
Qed.

Lemma status_is_ignored_unless_raising_witness :
  let answer := {| status := 429; body := "Too Many Requests" |} in
  _translate (Sample.client ["translate.google.com"] false answer) "Bonjour" "en" "auto" 0 []
  = (inr ("Too Many Requests", answer),
     [rpc_call "translate.google.com" "Bonjour" "en" "auto"]).
Proof.
  intros answer.
  apply (status_is_ignored_unless_raising
           (Sample.client ["translate.google.com"] false answer)
           "Bonjour" "en" "auto" 0 [] "translate.google.com" answer eq_refl eq_refl).
  left. reflexivity.
Defined.

Section ClientMore.
Import PyStr ResolveFacts.

Variables LANGUAGES SPECIAL_CASES LANGCODES : gmap string string.
Variable json_loads : string -> option json.

Local Abbreviation src_of := (resolve_src LANGUAGES SPECIAL_CASES LANGCODES).
Local Abbreviation dest_of := (resolve_dest LANGUAGES SPECIAL_CASES LANGCODES).
Local Abbreviation run := (translate LANGUAGES SPECIAL_CASES LANGCODES json_loads).

(** X9.  A source tag other than [auto] that is in none of the three
    tables makes [translate] raise the [ValueError] of the source, with
    the normalised tag, before the destination is looked at and before any
    post. *)
Theorem invalid_source_fails_first
  (self : AiohttpTranslator) (text dest src : string) (r : nat) (log : list PostCall) :
  normalize src <> "auto" ->
  LANGUAGES !! normalize src = None ->
  SPECIAL_CASES !! normalize src = None ->
  LANGCODES !! normalize src = None ->
  run self text dest src r log
  = (inl (ValueError ("Invalid Source Language: " +:+ normalize src)), log).
Proof.
  intros Ha H1 H2 H3. unfold translate, bind, lift.
  rewrite (resolve_src_unknown LANGUAGES SPECIAL_CASES LANGCODES _ Ha H1 H2 H3).
  reflexivity.
Qed.

(** X10.  [auto] is a word of the source only.  As a source, in any
    spelling that normalises to it, it is passed on as it is without any
    table being read; as a destination it is looked up like any tag, and
    refused when no table holds it. *)
Theorem auto_is_special_for_the_source_only
  (self : AiohttpTranslator) (text dest src : string) (r : nat) (log : list PostCall) :
  normalize src = "auto" ->
  src_of (normalize src) = inr "auto"
  /\ (normalize dest = "auto" ->
      LANGUAGES !! "auto" = None ->
      SPECIAL_CASES !! "auto" = None ->
      LANGCODES !! "auto" = None ->
      run self text dest src r log
      = (inl (ValueError "Invalid Destination Language: auto"), log)).
Proof.
  intros Hs. rewrite Hs. split; [reflexivity |].
  intros Hd H1 H2 H3. unfold translate, bind, lift. rewrite Hs, Hd.
  change (src_of "auto") with (@inr exn string "auto").
  rewrite (resolve_dest_unknown LANGUAGES SPECIAL_CASES LANGCODES _ H1 H2 H3).
  reflexivity.
Qed.

(** X11.  Once both tags resolve and a host is drawn, [translate] issues
    exactly one post, whatever happens to the response afterwards; the
    payload of that post is built from the text as given and from the
    resolved codes, not from the tags the caller wrote. *)
Theorem translate_posts_once_with_resolved_codes
  (self : AiohttpTranslator) (text dest src : string) (r : nat) (log : list PostCall)
  (s d host : string) :
  src_of (normalize src) = inr s ->
  dest_of (normalize dest) = inr d ->
  _pick_service_url self r = inr host ->
  snd (run self text dest src r log) = log ++ [rpc_call host text d s]
  /\ post_data (rpc_call host text d s) = [("f.req", _build_rpc_request text d s)].
Proof.
  intros Hs Hd Hpick. split; [| reflexivity].
  rewrite (translate_resolved LANGUAGES SPECIAL_CASES LANGCODES json_loads
             self text dest src r log s d Hs Hd).
  rewrite <- (TransportMore._translate_log self text d s r log host Hpick).
  destruct (_translate self text d s r log) as [[e | [data response]] log']; reflexivity.
Qed.

(** X14.  An exception raised by the session's [post] comes out of
    [translate] unchanged, with the post in the log; nothing is framed or
    decoded. *)
Theorem transport_error_propagates
  (self : AiohttpTranslator) (text dest src : string) (r : nat) (log : list PostCall)
  (s d host : string) (e : exn) :
  src_of (normalize src) = inr s ->
  dest_of (normalize dest) = inr d ->
  _pick_service_url self r = inr host ->
  session self (rpc_call host text d s) = inl e ->
  run self text dest src r log = (inl e, log ++ [rpc_call host text d s]).
Proof.
  intros Hs Hd Hpick Hpost.
  rewrite (translate_resolved LANGUAGES SPECIAL_CASES LANGCODES json_loads
             self text dest src r log s d Hs Hd).
  unfold _translate, bind, lift, post. rewrite Hpick, Hpost. reflexivity.
Qed.

(** A result of [translate] comes from [decode]: its confidence is
    [None]. *)
Lemma translate_confidence
  (self : AiohttpTranslator) (text dest src : string) (r : nat) (log log' : list PostCall)
  (tr : Translated) :
  run self text dest src r log = (inr tr, log') ->
  extra_confidence (tr_extra_data tr) = JNull.
Proof.
  unfold translate, bind, lift. intros H.
  destruct (src_of (normalize src)) as [e | s]; [discriminate |].
  destruct (dest_of (normalize dest)) as [e | d]; [discriminate |].
  destruct (_translate self text d s r log) as [[e | [data response]] log1]; [discriminate |].
  destruct (parse_response json_loads (frame data)) as [e | parsed]; [discriminate |].
  injection H as H _. unfold decode in H.
  repeat match type of H with
         | ebind ?m _ = inr _ => destruct m; cbn [ebind] in H; [discriminate |]
         end.
  injection H as <-. reflexivity.
Qed.

(** X8.  [detect] is [translate] from [auto] to [en]: it fails with the
    same exception and the same posts, and when [translate] returns, the
    language is the source of its result, the response is its response,
    and the confidence is always [None]. *)
Theorem detect_is_translate_to_english
  (self : AiohttpTranslator) (text : string) (r : nat) (log : list PostCall) :
  detect LANGUAGES SPECIAL_CASES LANGCODES json_loads self text r log
  = match run self text "en" "auto" r log with
    | (inl e, log') => (inl e, log')
    | (inr tr, log') =>
        (inr {| det_lang := tr_src tr;
                det_confidence := JNull;
                det_response := tr_response tr |}, log')
    end.
Proof.
  unfold detect, bind, ret.
  destruct (run self text "en" "auto" r log) as [[e | tr] log'] eqn:H; [reflexivity |].
  rewrite (translate_confidence _ _ _ _ _ _ _ _ H). reflexivity.
Qed.

(** X20.  The whole call on a reply that is well formed: both tags
    resolve, the response is accepted, the framed text parses to a value
    whose [[0][2]] is a string, that string parses to a payload with a
    boolean at [[1][0][0][3]] and entries at [[1][0][0][5]].  The call
    then returns, after its one post, the texts of the entries joined, the
    parts in order, the resolved destination, the text as given and the
    response as received. *)
Theorem translate_returns_the_decoded_reply
  (self : AiohttpTranslator) (text dest src : string) (r : nat) (log : list PostCall)
  (s d host inner : string) (response : Response) (data parsed : json)
  (b : bool) (pairs : list (string * list json)) :
  src_of (normalize src) = inr s ->
  dest_of (normalize dest) = inr d ->
  _pick_service_url self r = inr host ->
  session self (rpc_call host text d s) = inr response ->
  raise_exception self = false \/ status response = 200%Z ->
  json_loads (frame (body response)) = Some data ->
  getpath data [0; 2] = inr (JStr inner) ->
  json_loads inner = Some parsed ->
  getpath parsed [1; 0; 0; 3] = inr (JBool b) ->
  getpath parsed [1; 0; 0; 5] = inr (JList (map entry_of pairs)) ->
  exists tr,
    run self text dest src r log = (inr tr, log ++ [rpc_call host text d s])
    /\ tr_text tr = join (if b then " " else "") (map fst pairs)
    /\ tr_parts tr = map part_of pairs
    /\ tr_dest tr = d
    /\ tr_origin tr = text
    /\ tr_response tr = response
    /\ tr_src tr = resolve_detected_src parsed (JStr s).
Proof.
  intros Hs Hd Hpick Hpost Hok Hdata Hinner Hparsed H3 H5.
  rewrite (translate_resolved LANGUAGES SPECIAL_CASES LANGCODES json_loads
             self text dest src r log s d Hs Hd).
  assert (Htr : _translate self text d s r log
                = (inr (body response, response), log ++ [rpc_call host text d s])).
  { unfold _translate, bind, lift, post, ret. rewrite Hpick, Hpost.
    destruct Hok as [-> | ->]; [rewrite andb_false_r |]; reflexivity. }
  rewrite Htr. unfold parse_response. rewrite Hdata. cbn [ebind].
  rewrite Hinner. cbn [ebind]. rewrite Hparsed. cbn [ebind].
  unfold decode. rewrite H3, H5. cbn [ebind PyObj.iter].
  rewrite DecodeFacts.make_parts_entries. cbn [ebind].
  rewrite DecodeFacts.part_texts. cbn [ebind PyObj.truthy].
  eexists. split; [reflexivity |]. repeat split.
Qed.

End ClientMore.

Lemma invalid_source_fails_first_witness :
  translate Sample.LANGUAGES Sample.SPECIAL_CASES Sample.LANGCODES Json.loads
    (Sample.client ["translate.google.com"] true {| status := 200; body := Sample.reply_body |})
    "Bonjour" "also-unknown" "XX_yy" 0 []
  = (inl (ValueError "Invalid Source Language: xx"), []).
Proof.
  apply (invalid_source_fails_first
           Sample.LANGUAGES Sample.SPECIAL_CASES Sample.LANGCODES Json.loads
           (Sample.client ["translate.google.com"] true
              {| status := 200; body := Sample.reply_body |})
           "Bonjour" "also-unknown" "XX_yy" 0 []).
  - discriminate.
  - reflexivity.
  - reflexivity.
  - reflexivity.
Defined.

Lemma auto_is_special_for_the_source_only_witness :
  resolve_src Sample.LANGUAGES Sample.SPECIAL_CASES Sample.LANGCODES (normalize "AUTO_x")
  = inr "auto"
  /\ translate Sample.LANGUAGES Sample.SPECIAL_CASES Sample.LANGCODES Json.loads
       (Sample.client ["translate.google.com"] true
          {| status := 200; body := Sample.reply_body |})
       "Bonjour" "Auto" "AUTO_x" 0 []
     = (inl (ValueError "Invalid Destination Language: auto"), []).
Proof.
  destruct (auto_is_special_for_the_source_only
              Sample.LANGUAGES Sample.SPECIAL_CASES Sample.LANGCODES Json.loads
              (Sample.client ["translate.google.com"] true
                 {| status := 200; body := Sample.reply_body |})
              "Bonjour" "Auto" "AUTO_x" 0 [] eq_refl) as [H1 H2].
  split; [exact H1 |].
  apply H2; reflexivity.
Defined.

Lemma translate_posts_once_with_resolved_codes_witness :
  snd (translate Sample.LANGUAGES Sample.SPECIAL_CASES Sample.LANGCODES Json.loads
         (Sample.client ["translate.google.com"] true
            {| status := 500; body := "" |})
         "Tere" "English" "EE" 0 [])
  = [rpc_call "translate.google.com" "Tere" "en" "et"].
Proof.
  apply (proj1 (translate_posts_once_with_resolved_codes
                  Sample.LANGUAGES Sample.SPECIAL_CASES Sample.LANGCODES Json.loads
                  (Sample.client ["translate.google.com"] true
                     {| status := 500; body := "" |})
                  "Tere" "English" "EE" 0 [] "et" "en" "translate.google.com"
                  eq_refl eq_refl eq_refl)).
Defined.

Lemma transport_error_propagates_witness :
  let self := {| raise_exception := true;
                 service_urls := ["translate.google.com"];
                 client_type := "tw-ob";
                 session := fun _ => inl (TransportError "timeout") |} in
  translate Sample.LANGUAGES Sample.SPECIAL_CASES Sample.LANGCODES Json.loads
    self "Bonjour" "en" "fr" 0 []
  = (inl (TransportError "timeout"), [rpc_call "translate.google.com" "Bonjour" "en" "fr"]).
Proof.
  intros self.
  apply (transport_error_propagates
           Sample.LANGUAGES Sample.SPECIAL_CASES Sample.LANGCODES Json.loads
           self "Bonjour" "en" "fr" 0 [] "fr" "en" "translate.google.com"
           (TransportError "timeout") eq_refl eq_refl eq_refl eq_refl).
Defined.

Lemma translate_returns_the_decoded_reply_witness :
  let answer := {| status := 200; body := Sample.reply_body |} in
  exists tr,
    translate Sample.LANGUAGES Sample.SPECIAL_CASES Sample.LANGCODES Json.loads
      (Sample.client ["translate.google.com"] true answer)
      "Bonjour le monde" "EN_us" "auto" 0 []
    = (inr tr, [rpc_call "translate.google.com" "Bonjour le monde" "en" "auto"])
    /\ tr_text tr = "Hello world"
    /\ tr_parts tr = [ {| part_text := JStr "Hello";
                          part_candidates := JList [JStr "a"; JStr "b"] |};
                       {| part_text := JStr "world"; part_candidates := JList [] |} ]
    /\ tr_dest tr = "en"
    /\ tr_origin tr = "Bonjour le monde"
    /\ tr_response tr = answer
    /\ tr_src tr = JStr "fr".
Proof.
  intros answer.
  eapply (translate_returns_the_decoded_reply
            Sample.LANGUAGES Sample.SPECIAL_CASES Sample.LANGCODES Json.loads
            (Sample.client ["translate.google.com"] true answer)
            "Bonjour le monde" "EN_us" "auto" 0 [] "auto" "en" "translate.google.com"
            (PyStr.lit Sample.payload) answer
            (JList [JList [JStr "wrb.fr"; JStr "MkEWBc"; JStr (PyStr.lit Sample.payload);
                           JNull; JNull; JNull; JStr "generic"]])
            (JList [JList [JNull; JNull; JStr "fr"];
                    JList [JList [JList [JNull; JNull; JNull; JBool true; JNull;
                                         JList [JList [JStr "Hello";
                                                       JList [JStr "a"; JStr "b"]];
                                                JList [JStr "world"]]]]];
                    JStr "fr"])
            true
            [("Hello", [JList [JStr "a"; JStr "b"]]); ("world", [])]).
  - reflexivity.
  - reflexivity.
  - reflexivity.
  - reflexivity.
  - right. reflexivity.
  - vm_compute. reflexivity.
  - reflexivity.
  - vm_compute. reflexivity.
  - reflexivity.
  - reflexivity.
Defined.


(** ** The encoder *)

Module EncoderMore.
Import PyStr PyStrFacts Json.

Lemma all_chars_app (p : ascii -> bool) (a b : string) :
  all_chars p (a +:+ b) = all_chars p a && all_chars p b.
Proof.
  induction a as [|c a IH]; [reflexivity |].
  cbn [String.append all_chars]. rewrite IH. now rewrite andb_assoc.
Qed.

Lemma escape_char_printable (c : ascii) : all_chars printable (escape_char c) = true.
Proof. destruct c as [[] [] [] [] [] [] [] []]; vm_compute; reflexivity. Qed.

Lemma escape_printable (s : string) : all_chars printable (escape s) = true.
Proof.
  induction s as [|c s IH]; [reflexivity |].
  cbn [escape]. now rewrite all_chars_app, escape_char_printable, IH.
Qed.

Lemma dumps_str_printable (s : string) : all_chars printable (dumps_str s) = true.
Proof.
  unfold dumps_str, quoted. cbn [all_chars].
  rewrite all_chars_app, escape_printable. reflexivity.
Qed.

(** The text of the request, spelled out. *)
Lemma rpc_request_text (text dest src : string) :
  _build_rpc_request text dest src
  = "[[[" +:+ dumps_str "MkEWBc" +:+ ","
          +:+ dumps_str ("[[" +:+ dumps_str text +:+ "," +:+ dumps_str src +:+ ","
                              +:+ dumps_str dest +:+ ",true],[null]]")
          +:+ ",null," +:+ dumps_str "generic" +:+ "]]]".
Proof.
  unfold _build_rpc_request. cbn [dumps map join]. unfold RPC_ID.
  rewrite !append_assoc. reflexivity.
Qed.

(** Reading back one escaped character. *)
Lemma scan_escape_char (c : ascii) (tail : string) :
  scan_string (escape_char c +:+ tail)
  = match scan_string tail with
    | Some (t, tl) => Some (String c t, tl)
    | None => None
    end.
Proof. destruct c as [[] [] [] [] [] [] [] []]; reflexivity. Qed.

(** Reading back an escaped text up to its closing quote. *)
Lemma scan_escape (s rest : string) :
  scan_string (escape s +:+ String dquote rest) = Some (s, rest).
Proof.
  induction s as [|c s IH]; [reflexivity |].
  cbn [escape]. rewrite append_assoc, scan_escape_char, IH. reflexivity.
Qed.

Lemma prefix_inj (a x y : string) : a +:+ x = a +:+ y -> x = y.
Proof.
  induction a as [|c a IH]; cbn [String.append]; [trivial |].
  intros [= H]. exact (IH H).
Qed.

(** A printed string followed by anything determines both. *)
Lemma dumps_str_inj (a b ra rb : string) :
  dumps_str a +:+ ra = dumps_str b +:+ rb -> a = b /\ ra = rb.
Proof.
  unfold dumps_str, quoted. cbn [String.append]. rewrite !append_snoc.
  intros [= H]. apply (f_equal scan_string) in H.
  rewrite !scan_escape in H. injection H as -> ->. split; reflexivity.
Qed.

End EncoderMore.

(** X16.  Whatever the text and the codes, the request is made of
    printable ASCII characters only, from space to tilde: quotes,
    backslashes, control characters and characters above tilde are all
    escaped. *)
Theorem rpc_request_is_printable_ascii (text dest src : string) :
  PyStr.all_chars printable (_build_rpc_request text dest src) = true.
Proof.
  rewrite EncoderMore.rpc_request_text.
  repeat (rewrite EncoderMore.all_chars_app || rewrite EncoderMore.dumps_str_printable).
  reflexivity.
Qed.

(** ** [_parse_extra_data] *)

Module ExtraMore.

Lemma extra_value_list (items : list json) (index : nat) :
  extra_value (JList items) index = inr (extra_of items index).
Proof.
  unfold extra_value, extra_of. cbn [PyObj.len ebind PyObj.getitem].
  destruct (Nat.ltb_spec index (length items)) as [Hlt | Hge].
  - apply lookup_lt_is_Some_2 in Hlt as [v Hv]. rewrite Hv. cbn [ebind].
    destruct (PyObj.truthy v); reflexivity.
  - rewrite (proj2 (lookup_ge_None items index)) by lia. reflexivity.
Qed.

(** The dictionary the loop ends with. *)
Fixpoint filled (items : list json) (mapping : list (nat * string))
  (extra : gmap string json) : gmap string json :=
  match mapping with
  | [] => extra
  | (index, category) :: rest =>
      filled items rest (<[category := extra_of items index]> extra)
  end.

Lemma loop_filled (items : list json) (mapping : list (nat * string))
  (extra : gmap string json) :
  parse_extra_loop (JList items) mapping extra = inr (filled items mapping extra).
Proof.
  revert extra. induction mapping as [|[index category] rest IH]; intros extra.
  - reflexivity.
  - cbn [parse_extra_loop filled]. rewrite extra_value_list. cbn [ebind]. apply IH.
Qed.

Lemma filled_lookup (items : list json) (mapping : list (nat * string))
  (extra : gmap string json) :
  List.NoDup (map snd mapping) ->
  (forall index category, In (index, category) mapping ->
     filled items mapping extra !! category = Some (extra_of items index))
  /\ (forall k, ~ In k (map snd mapping) -> filled items mapping extra !! k = extra !! k).
Proof.
  revert extra. induction mapping as [|[i c] rest IH]; intros extra Hnd.
  - split; [intros ? ? [] | reflexivity].
  - cbn [map snd] in Hnd. inversion Hnd as [|? ? Hc Hrest]; subst.
    destruct (IH (<[c := extra_of items i]> extra) Hrest) as [IHin IHout].
    cbn [filled]. split.
    + intros index category [[= <- <-] | Hin].
      * rewrite IHout by exact Hc. apply lookup_insert_eq.
      * apply IHin. exact Hin.
    + intros k Hk. cbn [map snd] in Hk.
      rewrite IHout by (intros H; apply Hk; right; exact H).
      apply lookup_insert_ne. intros ->. apply Hk. left. reflexivity.
Qed.

Lemma mapping_categories_differ : List.NoDup (map snd response_parts_name_mapping).
Proof.
  cbn [map snd response_parts_name_mapping].
  repeat (constructor; [cbn [In]; intros H; repeat destruct H as [H | H]; discriminate H || exact H |]).
  constructor.
Qed.

End ExtraMore.

(** X15.  On a list, [_parse_extra_data] never raises and returns a
    dictionary with exactly the eleven categories as keys.  Under each
    category it holds the element of the list at the index of the
    category when there is one and it is truthy, and [None] otherwise: an
    element that is missing and one that is [0], [false], empty or [null]
    are not told apart. *)
Theorem parse_extra_data_fills_every_category (items : list json) :
  exists extra,
    _parse_extra_data (JList items) = inr extra
    /\ (forall index category,
           In (index, category) response_parts_name_mapping ->
           extra !! category = Some (extra_of items index))
    /\ (forall k, ~ In k (map snd response_parts_name_mapping) -> extra !! k = None).
Proof.
  exists (ExtraMore.filled items response_parts_name_mapping ∅).
  split; [apply ExtraMore.loop_filled |].
  destruct (ExtraMore.filled_lookup items response_parts_name_mapping ∅
              ExtraMore.mapping_categories_differ) as [Hin Hout].
  split; [exact Hin |].
  intros k Hk. rewrite Hout by exact Hk. apply lookup_empty.
Qed.

Lemma parse_extra_data_fills_every_category_witness :
  exists extra,
    _parse_extra_data
      (JList [JStr "Hi"; JList []; JStr "fr"; JNull; JNull; JFloat "1e-400"; JInt 0;
              JFloat "5e-324"])
    = inr extra
    /\ extra !! "translation" = Some (JStr "Hi")
    /\ extra !! "all-translations" = Some JNull
    /\ extra !! "possible-translations" = Some JNull
    /\ extra !! "confidence" = Some JNull
    /\ extra !! "possible-mistakes" = Some (JFloat "5e-324")
    /\ extra !! "see-also" = Some JNull
    /\ extra !! "parsed" = None.
Proof.
  destruct (parse_extra_data_fills_every_category
              [JStr "Hi"; JList []; JStr "fr"; JNull; JNull; JFloat "1e-400"; JInt 0;
               JFloat "5e-324"])
    as (extra & Hrun & Hin & Hout).
  exists extra. split; [exact Hrun |].
  split; [apply (Hin 0); cbn; tauto |].
  split; [apply (Hin 1); cbn; tauto |].
  split; [rewrite (Hin 5 "possible-translations") by (cbn; tauto); vm_compute; reflexivity |].
  split; [apply (Hin 6); cbn; tauto |].
  split; [rewrite (Hin 7 "possible-mistakes") by (cbn; tauto); vm_compute; reflexivity |].
  split; [apply (Hin 14); cbn; tauto |].
  apply Hout. cbn. intros H. repeat destruct H as [H | H]; discriminate H || exact H.
Defined.

(** ** The scanner and JSON strings *)

Module ScanMore.
Import PyStr PyStrFacts ScanFacts FrameFacts Json.

(** Inside a string, a text whose quotes are all escaped changes
    nothing. *)
Lemma scan_prev_escaped (s : string) (escaped : bool) (counts : nat * nat) :
  quotes_escaped escaped s = true ->
  scan_prev escaped s (true, counts) = (true, counts).
Proof.
  revert escaped. induction s as [|c s IH]; intros escaped H; [reflexivity |].
  cbn [quotes_escaped] in H. apply andb_true_iff in H as [Hc Hs].
  cbn [scan_prev]. unfold scan_step. destruct counts as [o n].
  destruct (Ascii.eqb c dquote); destruct escaped; try discriminate Hc;
    cbn [negb andb]; apply IH; exact Hs.
Qed.

(** A quoted text whose quotes are all escaped, met outside a string, is
    skipped whole. *)
Lemma scan_prev_quoted_escaped (s post : string) (counts : nat * nat) :
  quotes_escaped false s = true ->
  last_is backslash s = false ->
  scan_prev false (quoted s +:+ post) (false, counts)
  = scan_prev false post (false, counts).
Proof.
  intros Hq Hb. unfold quoted. simpl.
  rewrite append_snoc, scan_prev_app.
  destruct counts as [o c]. simpl.
  rewrite scan_prev_escaped by exact Hq.
  destruct (String.eqb s ""); [| rewrite Hb]; reflexivity.
Qed.

Lemma escape_char_quotes (c : ascii) (escaped : bool) (tail : string) :
  quotes_escaped escaped (escape_char c +:+ tail)
  = quotes_escaped (Ascii.eqb c backslash) tail.
Proof. destruct c as [[] [] [] [] [] [] [] []]; destruct escaped; reflexivity. Qed.

Lemma escape_quotes (s : string) (escaped : bool) (tail : string) :
  quotes_escaped escaped (escape s +:+ tail)
  = quotes_escaped (if String.eqb s "" then escaped else last_is backslash s) tail.
Proof.
  revert escaped. induction s as [|c s IH]; intros escaped; [reflexivity |].
  cbn [escape]. rewrite append_assoc, escape_char_quotes, IH.
  destruct s; reflexivity.
Qed.

Lemma escape_char_last (c : ascii) :
  last_is backslash (escape_char c) = Ascii.eqb c backslash.
Proof. destruct c as [[] [] [] [] [] [] [] []]; reflexivity. Qed.

Lemma escape_char_not_empty (c : ascii) : String.eqb (escape_char c) "" = false.
Proof. destruct c as [[] [] [] [] [] [] [] []]; reflexivity. Qed.

Lemma escape_last (s : string) : last_is backslash (escape s) = last_is backslash s.
Proof.
  induction s as [|c s IH]; [reflexivity |].
  cbn [escape]. rewrite last_is_app, IH.
  destruct s as [|d s].
  - cbn [escape String.eqb last_is]. apply escape_char_last.
  - cbn [escape].
    destruct (String.eqb (escape_char d +:+ escape s) "") eqn:He; [| reflexivity].
    apply String.eqb_eq in He.
    pose proof (escape_char_not_empty d) as Hd.
    destruct (escape_char d); [discriminate Hd | discriminate He].
Qed.

End ScanMore.

(** X18.  On a string literal as [json.dumps] prints it, the scanner adds
    nothing to the counts, whatever brackets and quotes the value holds.
    It ends outside the string unless the value ends with a backslash: it
    then takes the closing quote for an escaped one and stays inside. *)
Theorem string_literal_is_skipped_unless_it_ends_with_backslash
  (value : string) (counts : nat * nat) :
  scan_line (Json.dumps_str value) counts
  = (PyStr.last_is PyStr.backslash value, counts).
Proof.
  rewrite ScanFacts.scan_line_prev. unfold Json.dumps_str, PyStr.quoted.
  cbn [scan_prev]. destruct counts as [o c].
  change (scan_step false PyStr.dquote (false, (o, c))) with (true, (o, c)).
  change (Ascii.eqb PyStr.dquote PyStr.backslash) with false.
  rewrite ScanFacts.scan_prev_app.
  assert (Hq : quotes_escaped false (Json.escape value) = true).
  { rewrite <- (PyStrFacts.append_nil_r (Json.escape value)).
    rewrite ScanMore.escape_quotes. reflexivity. }
  rewrite ScanMore.scan_prev_escaped by exact Hq.
  rewrite ScanMore.escape_last.
  destruct value as [|x value].
  - reflexivity.
  - assert (He : String.eqb (Json.escape (String x value)) "" = false).
    { cbn [Json.escape]. pose proof (ScanMore.escape_char_not_empty x) as Hx.
      destruct (Json.escape_char x); [discriminate Hx | reflexivity]. }
    rewrite He. cbn [scan_prev]. unfold scan_step.
    destruct (PyStr.last_is PyStr.backslash (String x value)); reflexivity.
Qed.

(** X19.  The line of a reply, [[["wrb.fr","MkEWBc",] followed by the
    payload as a string and by [,null,null,null,"generic"]]], frames
    itself whenever the quotes of the embedded payload are all escaped and
    it does not end with a backslash: the marker is found, the brackets of
    the payload are not counted, the counts are 2 and 2 after the line and
    the lines that follow are left unread. *)
Theorem reply_line_frames_itself (embedded : string) (rest : list string) :
  quotes_escaped false embedded = true ->
  PyStr.last_is PyStr.backslash embedded = false ->
  frame_loop
    ((PyStr.lit "[['wrb.fr','MkEWBc'," +:+ PyStr.quoted embedded
      +:+ PyStr.lit ",null,null,null,'generic']]") :: rest) frame_init
  = ({| token_found := true;
        square_bracket_counts := (2, 2);
        resp := PyStr.lit "[['wrb.fr','MkEWBc'," +:+ PyStr.quoted embedded
                +:+ PyStr.lit ",null,null,null,'generic']]" |}, rest).
Proof.
  intros Hq Hb.
  rewrite FrameFacts.frame_loop_marker by reflexivity.
  cbv zeta. cbn [square_bracket_counts frame_init resp].
  rewrite FrameFacts.scan_line_split by reflexivity.
  change (scan_line (PyStr.lit "[['wrb.fr','MkEWBc',") (0, 0)) with (false, (2, 0)).
  rewrite ScanMore.scan_prev_quoted_escaped by assumption.
  reflexivity.
Qed.

Lemma reply_line_frames_itself_witness :
  frame_loop [PyStr.lit ("[['wrb.fr','MkEWBc','" +:+ Sample.embedded Sample.payload
                         +:+ "',null,null,null,'generic']]"); "57"] frame_init
  = ({| token_found := true;
        square_bracket_counts := (2, 2);
        resp := PyStr.lit ("[['wrb.fr','MkEWBc','" +:+ Sample.embedded Sample.payload
                           +:+ "',null,null,null,'generic']]") |}, ["57"]).
Proof.
  apply (reply_line_frames_itself (PyStr.lit (Sample.embedded Sample.payload)) ["57"]).
  - vm_compute. reflexivity.
  - vm_compute. reflexivity.
Defined.

(** ** The framed text and the marker *)

Module MarkerMore.
Import PyStr PyStrFacts FrameFacts.

Lemma length_app (a b : string) :
  String.length (a +:+ b) = String.length a + String.length b.
Proof. induction a as [|c a IH]; cbn; [reflexivity | now rewrite IH]. Qed.

(** The text gathered so far is never shortened. *)
Lemma frame_loop_resp_grows (lines : list string) (st : FrameState) :
  String.length (resp st) <= String.length (resp (fst (frame_loop lines st))).
Proof.
  revert st. induction lines as [|line rest IH]; intros st; [reflexivity |].
  cbn [frame_loop].
  destruct (negb (token_found st || contains (quoted RPC_ID) (take 30 line))).
  - apply (IH {| token_found := _; square_bracket_counts := _; resp := resp st |}).
  - cbv zeta.
    destruct (fst (snd (scan_line line (square_bracket_counts st)))
              =? snd (snd (scan_line line (square_bracket_counts st))))%nat.
    + cbn [fst resp]. rewrite length_app. lia.
    + etransitivity; [| apply IH]. cbn [resp]. rewrite length_app. lia.
Qed.

Lemma marker_line_not_empty (line : string) :
  contains (quoted RPC_ID) (take 30 line) = true -> 0 < String.length line.
Proof. destruct line; [discriminate | cbn; lia]. Qed.

Lemma frame_loop_empty_resp (lines : list string) :
  resp (fst (frame_loop lines frame_init)) = "" ->
  Forall (fun line => contains (quoted RPC_ID) (take 30 line) = false) lines.
Proof.
  induction lines as [|line rest IH]; intros Hresp; [constructor |].
  destruct (contains (quoted RPC_ID) (take 30 line)) eqn:Hm.
  - exfalso. rewrite frame_loop_marker in Hresp by exact Hm. cbv zeta in Hresp.
    pose proof (marker_line_not_empty line Hm) as Hlen.
    cbn [resp frame_init String.append] in Hresp.
    destruct (fst (snd (scan_line line (square_bracket_counts frame_init)))
              =? snd (snd (scan_line line (square_bracket_counts frame_init))))%nat.
    + cbn [fst resp] in Hresp. rewrite Hresp in Hlen. cbn in Hlen. lia.
    + match type of Hresp with
      | resp (fst (frame_loop rest ?st)) = _ =>
          pose proof (frame_loop_resp_grows rest st) as Hgrow
      end.
      rewrite Hresp in Hgrow. cbn [resp String.length] in Hgrow. lia.
  - constructor; [exact Hm |]. apply IH.
    rewrite frame_loop_skip in Hresp by (reflexivity || exact Hm). exact Hresp.
Qed.

End MarkerMore.

(** X21.  The framed text is empty exactly when no line of the body holds
    the quoted marker in its first 30 characters: once a marker line is
    found, that line at least is in the text handed to [json.loads]. *)
Theorem framed_text_is_empty_iff_no_marker (data : string) :
  frame data = ""
  <-> Forall (fun line => PyStr.contains (PyStr.quoted RPC_ID) (PyStr.take 30 line) = false)
        (PyStr.split PyStr.newline data).
Proof.
  split.
  - apply MarkerMore.frame_loop_empty_resp.
  - apply ClientFacts.frame_no_marker.
Qed.


(** ** Strings with escaped quotes *)

Section QuotedStrings.
Import PyStr PyStrFacts ScanFacts FrameFacts.

(** C2.  A text between two quotes neither of which is preceded by a
    backslash, met when the scanner is outside a string, adds nothing to
    the two counts, whatever brackets it holds and whatever quotes it
    holds after a backslash: after it the scanner is outside a string
    again with the counts it had before it, and the whole line counts as
    the same line with the empty string in its place.  So when the array
    is open (the counts differ) and the rest of the line holds no bracket,
    the loop does not break on that line and goes on to the next one. *)
Theorem quoted_brackets_are_not_counted
  (pre s post : string) (st : FrameState) (rest : list string) :
  fst (scan_line pre (square_bracket_counts st)) = false ->
  last_is backslash pre = false ->
  quotes_escaped false s = true ->
  last_is backslash s = false ->
  scan_line (pre +:+ quoted s) (square_bracket_counts st)
  = scan_line pre (square_bracket_counts st)
  /\ scan_line (pre +:+ quoted s +:+ post) (square_bracket_counts st)
     = scan_line (pre +:+ quoted "" +:+ post) (square_bracket_counts st)
  /\ (token_found st = true ->
      fst (square_bracket_counts st) <> snd (square_bracket_counts st) ->
      count lbracket (pre +:+ post) = 0 ->
      count rbracket (pre +:+ post) = 0 ->
      frame_loop ((pre +:+ quoted s +:+ post) :: rest) st
      = frame_loop rest
          {| token_found := true;
             square_bracket_counts := square_bracket_counts st;
             resp := resp st +:+ (pre +:+ quoted s +:+ post) |}).
Proof.
  intros Hout Hpre Hs Hsb.
  set (counts := square_bracket_counts st) in *.
  assert (Hone : scan_line (pre +:+ quoted s) counts = scan_line pre counts).
  { rewrite scan_line_split by exact Hpre.
    destruct (scan_line pre counts) as [f c1]. simpl in Hout. subst f.
    rewrite <- (append_nil_r (quoted s)).
    rewrite ScanMore.scan_prev_quoted_escaped by assumption. reflexivity. }
  assert (Heq : scan_line (pre +:+ quoted s +:+ post) counts
                = scan_line (pre +:+ quoted "" +:+ post) counts).
  { rewrite !scan_line_split by exact Hpre.
    destruct (scan_line pre counts) as [f c1]. simpl in Hout. subst f.
    rewrite ScanMore.scan_prev_quoted_escaped by assumption.
    rewrite scan_prev_quoted by reflexivity. reflexivity. }
  split; [exact Hone |]. split; [exact Heq |].
  intros Hfound Hopen Hl Hr.
  rewrite frame_loop_found by exact Hfound. fold counts.
  rewrite Heq, scan_line_prev, scan_prev_no_bracket.
  - cbv zeta. destruct (Nat.eqb_spec (fst counts) (snd counts)); [contradiction | reflexivity].
  - rewrite count_app in Hl. rewrite !count_app. simpl. lia.
  - rewrite count_app in Hr. rewrite !count_app. simpl. lia.
Qed.

Lemma quoted_brackets_are_not_counted_witness :
  let st := {| token_found := true; square_bracket_counts := (2, 1); resp := "[[1]," |} in
  scan_line (lit "'a', 'say \'[not a bracket]\' ]]'") (2, 1) = (false, (2, 1))
  /\ scan_line (lit "'a', 'say \'[not a bracket]\' ]]', 'b'") (2, 1)
     = scan_line (lit "'a', '', 'b'") (2, 1)
  /\ frame_loop [lit "'a', 'say \'[not a bracket]\' ]]', 'b'"; "]"] st
     = frame_loop ["]"]
         {| token_found := true; square_bracket_counts := (2, 1);
            resp := lit "[[1],'a', 'say \'[not a bracket]\' ]]', 'b'" |}.
Proof.
  intros st.
  destruct (quoted_brackets_are_not_counted
              (lit "'a', ") (lit "say \'[not a bracket]\' ]]") (lit ", 'b'") st ["]"]
              eq_refl eq_refl eq_refl eq_refl) as (H1 & H2 & H3).
  split; [exact H1 |]. split; [exact H2 |].
  apply H3; [reflexivity | discriminate | reflexivity | reflexivity].
Defined.

End QuotedStrings.

(** ** The request read back *)

Module EncoderParse.
Import PyStr PyStrFacts Json.

Lemma dumps_str_app (s rest : string) :
  dumps_str s +:+ rest = String dquote (escape s +:+ String dquote rest).
Proof. unfold dumps_str, quoted. cbn [String.append]. now rewrite append_snoc. Qed.

Lemma parse_value_str (f : nat) (s rest : string) :
  parse_value (S f) (dumps_str s +:+ rest) = Some (JStr s, rest).
Proof.
  rewrite dumps_str_app.
  transitivity (match scan_string (escape s +:+ String dquote rest) with
                | Some (t, tl) => Some (JStr t, tl)
                | None => None
                end); [reflexivity |].
  now rewrite EncoderMore.scan_escape.
Qed.

Lemma skip_ws_str (s rest : string) :
  skip_ws (dumps_str s +:+ rest) = dumps_str s +:+ rest.
Proof. rewrite dumps_str_app. reflexivity. Qed.

Lemma parse_list_of_str (f : nat) (s rest : string) :
  parse_value (S f) (String "[" (dumps_str s +:+ rest))
  = parse_items f (dumps_str s +:+ rest) [].
Proof. rewrite dumps_str_app. reflexivity. Qed.

Lemma parse_list_of_list (f : nat) (inside : string) :
  parse_value (S f) (String "[" (String "[" inside))
  = parse_items f (String "[" inside) [].
Proof. reflexivity. Qed.

Lemma parse_items_comma (f : nat) (s : string) (acc : list json) (v : json) (tl : string) :
  parse_value f s = Some (v, String "," tl) ->
  parse_items (S f) s acc = parse_items f (skip_ws tl) (acc ++ [v]).
Proof.
  intros H.
  transitivity (match parse_value f s with
                | Some (v, rest) =>
                    match skip_ws rest with
                    | String "]" tl => Some (JList (acc ++ [v]), tl)
                    | String "," tl => parse_items f (skip_ws tl) (acc ++ [v])
                    | _ => None
                    end
                | None => None
                end); [reflexivity |].
  rewrite H. reflexivity.
Qed.

Lemma parse_items_close (f : nat) (s : string) (acc : list json) (v : json) (tl : string) :
  parse_value f s = Some (v, String "]" tl) ->
  parse_items (S f) s acc = Some (JList (acc ++ [v]), tl).
Proof.
  intros H.
  transitivity (match parse_value f s with
                | Some (v, rest) =>
                    match skip_ws rest with
                    | String "]" tl => Some (JList (acc ++ [v]), tl)
                    | String "," tl => parse_items f (skip_ws tl) (acc ++ [v])
                    | _ => None
                    end
                | None => None
                end); [reflexivity |].
  rewrite H. reflexivity.
Qed.

(** The row [[text, src, dest, true]]. *)
Lemma parse_row (f : nat) (text src dest rest : string) :
  parse_value (S (S (S (S (S (S f))))))
    (String "[" (dumps_str text +:+ "," +:+ dumps_str src +:+ "," +:+ dumps_str dest
                 +:+ ",true]" +:+ rest))
  = Some (JList [JStr text; JStr src; JStr dest; JBool true], rest).
Proof.
  cbn [String.append].
  rewrite parse_list_of_str.
  rewrite (parse_items_comma _ _ _ _ _ (parse_value_str _ _ _)), skip_ws_str.
  rewrite (parse_items_comma _ _ _ _ _ (parse_value_str _ _ _)), skip_ws_str.
  rewrite (parse_items_comma _ _ _ _ _ (parse_value_str _ _ _)).
  rewrite (parse_items_close (S f) _ _ (JBool true) rest) by reflexivity.
  reflexivity.
Qed.

Lemma parse_inner (f : nat) (text src dest rest : string) :
  parse_value (S (S (S (S (S (S (S (S f))))))))
    ("[[" +:+ dumps_str text +:+ "," +:+ dumps_str src +:+ "," +:+ dumps_str dest
          +:+ ",true],[null]]" +:+ rest)
  = Some (JList [JList [JStr text; JStr src; JStr dest; JBool true]; JList [JNull]], rest).
Proof.
  cbn [String.append].
  rewrite parse_list_of_list.
  assert (Hrow : parse_value (S (S (S (S (S (S f))))))
                   (String "[" (dumps_str text +:+ "," +:+ dumps_str src +:+ ","
                                +:+ dumps_str dest +:+ ",true],[null]]" +:+ rest))
                 = Some (JList [JStr text; JStr src; JStr dest; JBool true],
                         String "," ("[null]]" +:+ rest))).
  { apply (parse_row f text src dest (",[null]]" +:+ rest)). }
  cbn [String.append] in Hrow.
  rewrite (parse_items_comma _ _ _ _ _ Hrow).
  rewrite (parse_items_close _ _ _ (JList [JNull]) rest) by reflexivity.
  reflexivity.
Qed.

Lemma parse_singleton (f : nat) (inside tl : string) (v : json) :
  parse_value f (String "[" inside) = Some (v, String "]" tl) ->
  parse_value (S (S f)) (String "[" (String "[" inside)) = Some (JList [v], tl).
Proof.
  intros H. rewrite parse_list_of_list, (parse_items_close _ _ _ _ _ H). reflexivity.
Qed.

(** The wrapper around the inner text. *)
Lemma parse_wrapper (f : nat) (inner rest : string) :
  parse_value (S (S (S (S (S (S (S (S (S (S f))))))))))
    ("[[[" +:+ dumps_str "MkEWBc" +:+ "," +:+ dumps_str inner +:+ ",null,"
           +:+ dumps_str "generic" +:+ "]]]" +:+ rest)
  = Some (JList [JList [JList [JStr "MkEWBc"; JStr inner; JNull; JStr "generic"]]], rest).
Proof.
  cbn [String.append].
  apply parse_singleton, parse_singleton.
  rewrite parse_list_of_str.
  rewrite (parse_items_comma _ _ _ _ _ (parse_value_str _ _ _)), skip_ws_str.
  rewrite (parse_items_comma _ _ _ _ _ (parse_value_str _ _ _)).
  rewrite (parse_items_comma (S (S f)) _ _ JNull
             (dumps_str "generic" +:+ String "]" (String "]" (String "]" rest))))
    by reflexivity.
  rewrite skip_ws_str.
  rewrite (parse_items_close _ _ _ _ _ (parse_value_str _ _ _)).
  reflexivity.
Qed.

Lemma parse_value_fuel (needed fuel : nat) (s : string) (r : option (json * string)) :
  (forall f, parse_value (needed + f) s = r) ->
  needed <= fuel ->
  parse_value fuel s = r.
Proof. intros H Hle. rewrite <- (H (fuel - needed)). f_equal. lia. Qed.

Lemma loads_inner (text src dest : string) :
  loads ("[[" +:+ dumps_str text +:+ "," +:+ dumps_str src +:+ "," +:+ dumps_str dest
              +:+ ",true],[null]]")
  = Some (JList [JList [JStr text; JStr src; JStr dest; JBool true]; JList [JNull]]).
Proof.
  unfold loads.
  set (s := "[[" +:+ _).
  assert (Hskip : skip_ws s = s) by reflexivity.
  rewrite Hskip.
  rewrite (parse_value_fuel 8 _ s
             (Some (JList [JList [JStr text; JStr src; JStr dest; JBool true];
                           JList [JNull]], ""))).
  - reflexivity.
  - intros f. subst s.
    pose proof (parse_inner f text src dest "") as H.
    rewrite !append_nil_r in H. exact H.
  - subst s. rewrite dumps_str_app. cbn [String.append String.length]. lia.
Qed.

Lemma loads_wrapper (inner : string) :
  loads ("[[[" +:+ dumps_str "MkEWBc" +:+ "," +:+ dumps_str inner +:+ ",null,"
               +:+ dumps_str "generic" +:+ "]]]")
  = Some (JList [JList [JList [JStr "MkEWBc"; JStr inner; JNull; JStr "generic"]]]).
Proof.
  unfold loads.
  set (s := "[[[" +:+ _).
  assert (Hskip : skip_ws s = s) by reflexivity.
  rewrite Hskip.
  rewrite (parse_value_fuel 10 _ s
             (Some (JList [JList [JList [JStr "MkEWBc"; JStr inner; JNull;
                                         JStr "generic"]]], ""))).
  - reflexivity.
  - intros f. subst s.
    pose proof (parse_wrapper f inner "") as H.
    rewrite !append_nil_r in H. exact H.
  - subst s. rewrite dumps_str_app. cbn [String.append String.length]. lia.
Qed.


Lemma escape_app (a b : string) : escape (a +:+ b) = escape a +:+ escape b.
Proof.
  induction a as [|c a IH]; [reflexivity |].
  cbn [String.append escape]. now rewrite IH, append_assoc.
Qed.

Lemma escape_char_plain (c : ascii) : plain c = true -> escape_char c = String c "".
Proof. destruct c as [[] [] [] [] [] [] [] []]; vm_compute; intros; congruence. Qed.

Lemma escape_plain (s : string) : all_chars plain s = true -> escape s = s.
Proof.
  induction s as [|c s IH]; [reflexivity |].
  cbn [all_chars escape]. intros H. apply andb_true_iff in H as [Hc Hs].
  rewrite (escape_char_plain c Hc), (IH Hs). reflexivity.
Qed.

(** A quoted plain text, escaped: only its two quotes change. *)
Lemma escape_quoted_plain (s : string) :
  all_chars plain s = true -> escape (dumps_str s) = escaped_quoted s.
Proof.
  intros H. unfold dumps_str, quoted, escaped_quoted.
  rewrite (escape_plain s H).
  change (String dquote (s +:+ String dquote ""))
    with (String dquote "" +:+ (s +:+ String dquote "")).
  rewrite !escape_app, (escape_plain s H). reflexivity.
Qed.

End EncoderParse.

(** C8.  The encoder returns the compact serialisation (the tokens with
    nothing between them) of the wrapper around [innerJSON], the latter
    being the compact serialisation of the list made of [text, src, dest,
    true] and of [null]: both texts are spelled out below, and each reads
    back with [json.loads] as the value it serialises, whatever quotes,
    backslashes, brackets and control characters the triple holds.  When
    the triple is made of plain characters the request is the text given
    last, in which only the quotes of the inner text are escaped.  The
    request is a function of the triple alone. *)
Theorem rpc_request_is_compact_double_encoding (text dest src : string) :
  let inner := JList [JList [JStr text; JStr src; JStr dest; JBool true]; JList [JNull]] in
  let wrapper :=
    JList [JList [JList [JStr "MkEWBc"; JStr (Json.compact inner); JNull; JStr "generic"]]] in
  _build_rpc_request text dest src = Json.compact wrapper
  /\ Json.compact inner
     = "[[" +:+ Json.dumps_str text +:+ "," +:+ Json.dumps_str src +:+ ","
            +:+ Json.dumps_str dest +:+ ",true],[null]]"
  /\ _build_rpc_request text dest src
     = "[[[" +:+ Json.dumps_str "MkEWBc" +:+ "," +:+ Json.dumps_str (Json.compact inner)
             +:+ ",null," +:+ Json.dumps_str "generic" +:+ "]]]"
  /\ Json.loads (_build_rpc_request text dest src) = Some wrapper
  /\ Json.loads (Json.compact inner) = Some inner
  /\ (PyStr.all_chars plain text = true ->
      PyStr.all_chars plain src = true ->
      PyStr.all_chars plain dest = true ->
      _build_rpc_request text dest src
      = "[[[" +:+ PyStr.quoted "MkEWBc" +:+ ","
              +:+ PyStr.quoted ("[[" +:+ escaped_quoted text +:+ "," +:+ escaped_quoted src
                                     +:+ "," +:+ escaped_quoted dest +:+ ",true],[null]]")
              +:+ ",null," +:+ PyStr.quoted "generic" +:+ "]]]").
Proof.
  intros inner wrapper.
  assert (Hinner : Json.compact inner
                   = "[[" +:+ Json.dumps_str text +:+ "," +:+ Json.dumps_str src +:+ ","
                          +:+ Json.dumps_str dest +:+ ",true],[null]]").
  { rewrite <- JsonFacts.dumps_compact. unfold inner. cbn [Json.dumps map PyStr.join].
    rewrite !PyStrFacts.append_assoc. reflexivity. }
  assert (Hreq : _build_rpc_request text dest src
                 = "[[[" +:+ Json.dumps_str "MkEWBc" +:+ ","
                         +:+ Json.dumps_str (Json.compact inner)
                         +:+ ",null," +:+ Json.dumps_str "generic" +:+ "]]]").
  { unfold _build_rpc_request. fold inner. rewrite <- JsonFacts.dumps_compact.
    cbn [Json.dumps map PyStr.join]. unfold RPC_ID.
    rewrite !PyStrFacts.append_assoc. reflexivity. }
  split.
  { unfold _build_rpc_request, wrapper. fold inner.
    rewrite <- !JsonFacts.dumps_compact. reflexivity. }
  split; [exact Hinner |]. split; [exact Hreq |]. split.
  { rewrite Hreq. apply EncoderParse.loads_wrapper. }
  split.
  { rewrite Hinner. apply EncoderParse.loads_inner. }
  intros Ht Hs Hd. rewrite Hreq, Hinner.
  unfold Json.dumps_str at 2.
  rewrite !EncoderParse.escape_app.
  rewrite !EncoderParse.escape_quoted_plain by assumption.
  reflexivity.
Qed.

Lemma rpc_request_is_compact_double_encoding_witness :
  let text := PyStr.lit "a'b\[|" +:+ String "233"%char "" in
  _build_rpc_request text "en" "auto"
  = PyStr.lit ("[[['MkEWBc','[[\'a\\\'b\\\\[\\n\\u00e9\',\'auto\',\'en\',true],[null]]',"
               +:+ "null,'generic']]]")
  /\ Json.loads
       (PyStr.lit ("[[['MkEWBc','[[\'a\\\'b\\\\[\\n\\u00e9\',\'auto\',\'en\',true],[null]]',"
                   +:+ "null,'generic']]]"))
     = Some (JList [JList [JList [JStr "MkEWBc";
                                  JStr (PyStr.lit "[['a\'b\\[\n\u00e9','auto','en',true],[null]]");
                                  JNull; JStr "generic"]]])
  /\ Json.loads (PyStr.lit "[['a\'b\\[\n\u00e9','auto','en',true],[null]]")
     = Some (JList [JList [JStr text; JStr "auto"; JStr "en"; JBool true]; JList [JNull]])
  /\ _build_rpc_request "Hello [world]" "en" "auto"
     = PyStr.lit ("[[['MkEWBc','[[\'Hello [world]\',\'auto\',\'en\',true],[null]]',"
                  +:+ "null,'generic']]]").
Proof.
  intros text.
  pose proof (rpc_request_is_compact_double_encoding text "en" "auto") as H.
  cbv zeta in H. destruct H as (_ & _ & Hreq & Hloads & Hinner & _).
  pose proof (rpc_request_is_compact_double_encoding "Hello [world]" "en" "auto") as P.
  cbv zeta in P. destruct P as (_ & _ & _ & _ & _ & Hplain).
  specialize (Hplain eq_refl eq_refl eq_refl).
  vm_compute in Hreq. vm_compute in Hloads. vm_compute in Hinner. vm_compute in Hplain.
  vm_compute. split; [exact Hreq |]. split; [exact Hloads |]. split; [exact Hinner |].
  exact Hplain.
Defined.

(** ** The encoder over the whole of [str] *)

Module UnicodeFacts.
Import PyStr PyStrFacts Unicode.

Lemma hex_value_digit (d : N) :
  (d < 16)%N -> hex_value_N (Json.hex_digit (N.to_nat d)) = Some d.
Proof.
  intros H.
  assert (Hd : In d [0; 1; 2; 3; 4; 5; 6; 7; 8; 9; 10; 11; 12; 13; 14; 15]%N).
  { cbn [In]. lia. }
  cbn [In] in Hd.
  repeat (destruct Hd as [<- | Hd]; [reflexivity |]). contradiction.
Qed.

Lemma units_hex4 (n : N) (rest : string) :
  (n < 65536)%N ->
  units (String backslash ("u" +:+ hex4 n) +:+ rest) = cons_units [n] (units rest).
Proof.
  intros H. unfold hex4. cbn [String.append].
  transitivity
    (match hex_value_N (Json.hex_digit (N.to_nat ((n / 4096) mod 16))),
           hex_value_N (Json.hex_digit (N.to_nat ((n / 256) mod 16))),
           hex_value_N (Json.hex_digit (N.to_nat ((n / 16) mod 16))),
           hex_value_N (Json.hex_digit (N.to_nat (n mod 16))) with
     | Some a, Some b, Some c', Some d =>
         match units rest with
         | Some (t, tl) => Some ((((a * 16 + b) * 16 + c') * 16 + d)%N :: t, tl)
         | None => None
         end
     | _, _, _, _ => None
     end); [reflexivity |].
  rewrite !hex_value_digit by (apply N.mod_upper_bound; discriminate).
  replace ((((n / 4096) mod 16 * 16 + (n / 256) mod 16) * 16 + (n / 16) mod 16) * 16
           + n mod 16)%N with n.
  - destruct (units rest) as [[t tl]|]; reflexivity.
  - assert (H3 : (n / 4096 < 16)%N) by (apply N.Div0.div_lt_upper_bound; lia).
    apply N.mod_small in H3.
    pose proof (N.div_mod n 16 ltac:(discriminate)) as H0.
    pose proof (N.div_mod (n / 16) 16 ltac:(discriminate)) as H1.
    pose proof (N.div_mod (n / 256) 16 ltac:(discriminate)) as H2.
    rewrite N.Div0.div_div in H1, H2.
    change (16 * 16)%N with 256%N in *. change (256 * 16)%N with 4096%N in *.
    lia.
Qed.


Lemma lor_shifted (a x : N) : (x < 1024)%N -> N.lor (N.shiftl a 10) x = (a * 1024 + x)%N.
Proof.
  intros H.
  assert (Hland : N.land (N.shiftl a 10) x = 0%N).
  { apply N.bits_inj. intros i. rewrite N.land_spec, N.bits_0.
    destruct (N.ltb_spec i 10) as [Hlt | Hge].
    - now rewrite N.shiftl_spec_low.
    - rewrite <- (N.mod_small x (2 ^ 10)) by exact H.
      rewrite N.mod_pow2_bits_high by exact Hge. apply andb_false_r. }
  rewrite <- N.lxor_lor, <- N.add_nocarry_lxor by exact Hland.
  now rewrite N.shiftl_mul_pow2.
Qed.

Lemma land_low (v : N) : N.land v 1023 = (v mod 1024)%N.
Proof. change 1023%N with (N.ones 10). now rewrite N.land_ones. Qed.

(** The two surrogates of a character from U+10000 on. *)
Lemma surrogates_of (n : N) :
  (65536 <= n < 1114112)%N ->
  N.lor 55296 (N.land (N.shiftr (n - 65536) 10) 1023) = (55296 + (n - 65536) / 1024)%N
  /\ N.lor 56320 (N.land (n - 65536) 1023) = (56320 + (n - 65536) mod 1024)%N.
Proof.
  intros H. rewrite !land_low, N.shiftr_div_pow2.
  change (2 ^ 10)%N with 1024%N.
  assert (Hq : ((n - 65536) / 1024 < 1024)%N) by (apply N.Div0.div_lt_upper_bound; lia).
  rewrite (N.mod_small _ _ Hq).
  split.
  - exact (lor_shifted 54 _ Hq).
  - exact (lor_shifted 55 _ (N.mod_upper_bound _ 1024 ltac:(discriminate))).
Qed.

Lemma code_units_high (n : N) :
  (65536 <= n < 1114112)%N ->
  code_units n = [(55296 + (n - 65536) / 1024)%N; (56320 + (n - 65536) mod 1024)%N].
Proof.
  intros H. unfold code_units.
  destruct (N.ltb_spec n 65536) as [Hlt | _]; [lia |].
  destruct (surrogates_of n H) as [-> ->]. reflexivity.
Qed.

Lemma units_plain (c : ascii) (rest : string) :
  Ascii.eqb c dquote = false -> Ascii.eqb c backslash = false ->
  units (String c rest) = cons_units [N_of_ascii c] (units rest).
Proof.
  intros Hq Hb. cbn [units]. rewrite Hq, Hb.
  destruct (units rest) as [[t tl]|]; reflexivity.
Qed.

Lemma units_short (e c : ascii) (rest : string) :
  Ascii.eqb e "u" = false -> Json.unescape e = Some c ->
  units (String backslash (String e rest)) = cons_units [N_of_ascii c] (units rest).
Proof.
  intros Hu He. cbn [units]. rewrite Hu, He.
  change (Ascii.eqb backslash dquote) with false.
  change (Ascii.eqb backslash backslash) with true. cbn match.
  destruct (units rest) as [[t tl]|]; reflexivity.
Qed.

Lemma cons_units_app (a b : list N) (r : option (list N * string)) :
  cons_units a (cons_units b r) = cons_units (a ++ b) r.
Proof. destruct r as [[t tl]|]; [| reflexivity]. cbn. now rewrite app_assoc. Qed.

Lemma units_codepoint (n : N) (rest : string) :
  (n < 1114112)%N ->
  units (escape_codepoint n +:+ rest) = cons_units (code_units n) (units rest).
Proof.
  intros Hn. unfold escape_codepoint.
  destruct (N.eqb_spec n 34) as [-> | H34];
    [exact (units_short dquote dquote rest eq_refl eq_refl) |].
  destruct (N.eqb_spec n 92) as [-> | H92];
    [exact (units_short backslash backslash rest eq_refl eq_refl) |].
  destruct (N.eqb_spec n 10) as [-> | H10];
    [exact (units_short "n"%char "010"%char rest eq_refl eq_refl) |].
  destruct (N.eqb_spec n 13) as [-> | H13];
    [exact (units_short "r"%char "013"%char rest eq_refl eq_refl) |].
  destruct (N.eqb_spec n 9) as [-> | H9];
    [exact (units_short "t"%char "009"%char rest eq_refl eq_refl) |].
  destruct (N.eqb_spec n 8) as [-> | H8];
    [exact (units_short "b"%char "008"%char rest eq_refl eq_refl) |].
  destruct (N.eqb_spec n 12) as [-> | H12];
    [exact (units_short "f"%char "012"%char rest eq_refl eq_refl) |].
  destruct (N.leb_spec 32 n) as [Hlo | Hlo]; cbn [andb].
  - destruct (N.leb_spec n 126) as [Hhi | Hhi].
    + cbn [String.append].
      assert (Hback : N_of_ascii (ascii_of_N n) = n) by (apply N_ascii_embedding; lia).
      rewrite units_plain.
      * rewrite Hback. unfold code_units.
        destruct (N.ltb_spec n 65536); [reflexivity | lia].
      * apply Ascii.eqb_neq. intros E. rewrite E in Hback. vm_compute in Hback. lia.
      * apply Ascii.eqb_neq. intros E. rewrite E in Hback. vm_compute in Hback. lia.
    + destruct (N.ltb_spec n 65536) as [Hlt | Hge].
      * rewrite units_hex4 by exact Hlt. unfold code_units.
        destruct (N.ltb_spec n 65536); [reflexivity | lia].
      * rewrite code_units_high by lia.
        destruct (surrogates_of n ltac:(lia)) as [-> ->].
        assert (Hq : ((n - 65536) / 1024 < 1024)%N)
          by (apply N.Div0.div_lt_upper_bound; lia).
        pose proof (N.mod_upper_bound (n - 65536) 1024 ltac:(discriminate)) as Hr.
        rewrite append_assoc, units_hex4 by lia.
        rewrite units_hex4 by lia.
        apply cons_units_app.
  - destruct (N.ltb_spec n 65536) as [Hlt | Hge]; [| lia].
    rewrite units_hex4 by exact Hlt. unfold code_units.
    destruct (N.ltb_spec n 65536); [reflexivity | lia].
Qed.

Lemma units_escape (s : ustr) (rest : string) :
  Forall (fun n => n < 1114112)%N s ->
  units (escape_ustr s +:+ String dquote rest) = Some (flat_map code_units s, rest).
Proof.
  induction 1 as [|n s Hn Hs IH]; [reflexivity |].
  cbn [escape_ustr flat_map]. rewrite append_assoc, units_codepoint by exact Hn.
  rewrite IH. reflexivity.
Qed.

Lemma scalar_spec (n : N) :
  scalar n = true <-> (n < 1114112 /\ (n < 55296 \/ 57343 < n))%N.
Proof.
  unfold scalar, high_surrogate, low_surrogate.
  destruct (N.ltb_spec n 1114112), (N.leb_spec 55296 n), (N.leb_spec n 56319),
    (N.leb_spec 56320 n), (N.leb_spec n 57343); cbn; split; intros; try lia; try discriminate.
Qed.

Lemma pair_code_units (s : ustr) :
  Forall (fun n => scalar n = true) s -> pair_surrogates (flat_map code_units s) = s.
Proof.
  induction 1 as [|n s Hn Hs IH]; [reflexivity |].
  apply scalar_spec in Hn as [Hn Hns]. cbn [flat_map].
  destruct (N.ltb_spec n 65536) as [Hlt | Hge].
  - unfold code_units at 1. destruct (N.ltb_spec n 65536); [| lia].
    cbn [app pair_surrogates].
    assert (Hh : high_surrogate n = false).
    { unfold high_surrogate. destruct (N.leb_spec 55296 n), (N.leb_spec n 56319); cbn; try reflexivity. exfalso; lia. }
    rewrite Hh. cbn [andb].
    destruct (flat_map code_units s) eqn:E.
    + rewrite <- IH. reflexivity.
    + now rewrite IH.
  - rewrite code_units_high by lia. cbn [app pair_surrogates].
    assert (Hq : ((n - 65536) / 1024 < 1024)%N)
      by (apply N.Div0.div_lt_upper_bound; lia).
    pose proof (N.mod_upper_bound (n - 65536) 1024 ltac:(discriminate)) as Hr.
    pose proof (N.div_mod (n - 65536) 1024 ltac:(discriminate)) as Hdm.
    set (q := ((n - 65536) / 1024)%N) in *. set (r := ((n - 65536) mod 1024)%N) in *.
    clearbody q r.
    assert (Hh : high_surrogate (55296 + q) = true).
    { unfold high_surrogate. apply andb_true_iff. split; apply N.leb_le; lia. }
    assert (Hl : low_surrogate (56320 + r) = true).
    { unfold low_surrogate. apply andb_true_iff. split; apply N.leb_le; lia. }
    rewrite Hh, Hl. cbn [andb]. rewrite IH. f_equal.
    replace (55296 + q - 55296)%N with q by lia.
    replace (56320 + r - 56320)%N with r by lia.
    rewrite lor_shifted by exact Hr. lia.
Qed.

Lemma scalar_valid (s : ustr) :
  Forall (fun n => scalar n = true) s -> Forall (fun n => n < 1114112)%N s.
Proof. apply List.Forall_impl. intros n H. now apply scalar_spec in H. Qed.

(** A string without surrogates reads back from its escaped form. *)
Lemma scan_escape_full (s : ustr) (rest : string) :
  Forall (fun n => scalar n = true) s ->
  scan_ustr (escape_ustr s +:+ String dquote rest) = Some (s, rest).
Proof.
  intros H. unfold scan_ustr.
  rewrite units_escape by now apply scalar_valid.
  now rewrite pair_code_units.
Qed.

Lemma dumps_ustr_inj (a b : ustr) (ra rb : string) :
  Forall (fun n => scalar n = true) a -> Forall (fun n => scalar n = true) b ->
  dumps_ustr a +:+ ra = dumps_ustr b +:+ rb -> a = b /\ ra = rb.
Proof.
  intros Ha Hb H. unfold dumps_ustr, quoted in H. cbn [String.append] in H.
  rewrite !append_snoc in H. injection H as H.
  pose proof (scan_escape_full a ra Ha) as Hsa. rewrite H, (scan_escape_full b rb Hb) in Hsa.
  now injection Hsa as -> ->.
Qed.

Lemma escape_of_char (c : ascii) : escape_codepoint (N_of_ascii c) = Json.escape_char c.
Proof. destruct c as [[] [] [] [] [] [] [] []]; vm_compute; reflexivity. Qed.

Lemma escape_of_string (s : string) : escape_ustr (of_string s) = Json.escape s.
Proof.
  induction s as [|c s IH]; [reflexivity |].
  cbn [of_string list_ascii_of_string map escape_ustr Json.escape].
  fold (of_string s). now rewrite escape_of_char, IH.
Qed.


Lemma proper_scalar (s : ustr) : proper s = true -> Forall (fun n => scalar n = true) s.
Proof.
  induction s as [|n s IH]; cbn [proper forallb]; [constructor |].
  intros H. apply andb_true_iff in H as [Hn Hs]. constructor; [exact Hn | exact (IH Hs)].
Qed.

Lemma build_rpc_request_inj (text dest src text' dest' src' : ustr) :
  proper text = true -> proper dest = true -> proper src = true ->
  proper text' = true -> proper dest' = true -> proper src' = true ->
  build_rpc_request text dest src = build_rpc_request text' dest' src' ->
  text = text' /\ dest = dest' /\ src = src'.
Proof.
  intros Ht Hd Hs Ht' Hd' Hs' H.
  apply proper_scalar in Ht, Hd, Hs, Ht', Hd', Hs'.
  unfold build_rpc_request in H.
  apply EncoderMore.prefix_inj in H.
  apply EncoderMore.dumps_str_inj in H as [_ H].
  apply EncoderMore.prefix_inj in H.
  apply EncoderMore.dumps_str_inj in H as [H _].
  unfold inner_json in H.
  apply EncoderMore.prefix_inj in H.
  apply dumps_ustr_inj in H as [-> H]; [| assumption ..].
  apply EncoderMore.prefix_inj in H.
  apply dumps_ustr_inj in H as [-> H]; [| assumption ..].
  apply EncoderMore.prefix_inj in H.
  apply dumps_ustr_inj in H as [-> _]; [| assumption ..].
  repeat split.
Qed.

End UnicodeFacts.

(** On the strings of this development the encoder over the whole of
    [str] is [_build_rpc_request]. *)
Lemma build_rpc_request_of_string (text dest src : string) :
  Unicode.build_rpc_request
    (Unicode.of_string text) (Unicode.of_string dest) (Unicode.of_string src)
  = _build_rpc_request text dest src.
Proof.
  rewrite EncoderMore.rpc_request_text.
  unfold Unicode.build_rpc_request, Unicode.inner_json, Unicode.dumps_ustr, Json.dumps_str,
    RPC_ID.
  rewrite !UnicodeFacts.escape_of_string. reflexivity.
Qed.

(** A character from U+10000 on and the string of its two surrogates are
    printed alike: [json.dumps] by itself does not tell them apart. *)
Lemma surrogate_pair_prints_as_its_character (dest src : Unicode.ustr) :
  [128512%N] <> [55357%N; 56832%N]
  /\ Unicode.build_rpc_request [128512%N] dest src
     = Unicode.build_rpc_request [55357%N; 56832%N] dest src.
Proof. split; [discriminate | reflexivity]. Qed.

(** X17.  The encoding loses nothing of a text and of codes that hold no
    surrogate code point (U+D800 to U+DFFF), whatever else they hold,
    characters above U+FFFF included: requests that differ in the text, in
    the source or in the destination are different texts.  (With
    surrogates it does lose: [surrogate_pair_prints_as_its_character].) *)
Theorem rpc_requests_of_different_triples_differ
  (text dest src text' dest' src' : Unicode.ustr) :
  Unicode.proper text = true -> Unicode.proper dest = true -> Unicode.proper src = true ->
  Unicode.proper text' = true -> Unicode.proper dest' = true -> Unicode.proper src' = true ->
  text <> text' \/ dest <> dest' \/ src <> src' ->
  Unicode.build_rpc_request text dest src <> Unicode.build_rpc_request text' dest' src'.
Proof.
  intros Ht Hd Hs Ht' Hd' Hs' Hne Heq.
  apply UnicodeFacts.build_rpc_request_inj in Heq as (E1 & E2 & E3); try assumption.
  destruct Hne as [H | [H | H]]; contradiction.
Qed.

Lemma rpc_requests_of_different_triples_differ_witness :
  _build_rpc_request (PyStr.lit "a','b") "en" "auto"
  <> _build_rpc_request "a" (PyStr.lit "b','en") "auto"
  /\ Unicode.build_rpc_request [128512%N] (Unicode.of_string "en") (Unicode.of_string "auto")
     <> Unicode.build_rpc_request [128513%N] (Unicode.of_string "en")
          (Unicode.of_string "auto").
Proof.
  split.
  - rewrite <- !build_rpc_request_of_string.
    apply rpc_requests_of_different_triples_differ; try reflexivity.
    left. discriminate.
  - apply rpc_requests_of_different_triples_differ; try reflexivity.
    left. discriminate.
Defined.
